(** * SumTube: the content-acquisition and chunking layer

    A shallow embedding of [sumtube/youtube_client.py] (class [YouTubeClient]):
    Python strings are lists of Unicode code points, Python integers are [Z],
    dictionaries are finite maps, and the effects of the methods (file reads
    and writes, [print], the transcript service, HTTP requests) are threaded
    through an explicit [world] by a small state-and-exception monad. *)

From Stdlib Require Import ZArith NArith Lia Ascii.
From Stdlib Require Import Floats.PrimFloat.
From stdpp Require Import base list strings gmap pretty.

#[local] Set Warnings "-register-all".

(** ** Python strings *)

(** A Python [str] is a sequence of code points. *)
Abbreviation str := (list N).

(** The [str] written by an ASCII literal. *)
Definition py (s : string) : str :=
  (fun a => N_of_ascii a) <$> String.list_ascii_of_string s.

(** [len(x)] as a Python integer. *)
Definition len {A} (l : list A) : Z := Z.of_nat (length l).

(** A slice bound as [PySlice_AdjustIndices] clamps it: a negative bound
    counts from the end, and every bound is cut to [0 .. len]. *)
Definition slice_bound (n i : Z) : Z :=
  if (i <? 0)%Z then Z.max (i + n) 0 else Z.min i n.

(** [l[start:stop]] (step 1). *)
Definition py_slice {A} (l : list A) (start stop : Z) : list A :=
  let lo := slice_bound (len l) start in
  let hi := slice_bound (len l) stop in
  take (Z.to_nat (hi - lo)) (drop (Z.to_nat lo) l).

(** [str.isspace] on one code point (CPython's [_PyUnicode_IsWhitespace]). *)
Definition is_whitespace (c : N) : bool :=
  ((9 <=? c) && (c <=? 13) || (28 <=? c) && (c <=? 32)
   || (c =? 133) || (c =? 160) || (c =? 5760)
   || (8192 <=? c) && (c <=? 8202)
   || (c =? 8232) || (c =? 8233) || (c =? 8239) || (c =? 8287)
   || (c =? 12288))%N.

Fixpoint lstrip (s : str) : str :=
  match s with
  | c :: s' => if is_whitespace c then lstrip s' else s
  | [] => []
  end.

Fixpoint rstrip (s : str) : str :=
  match s with
  | c :: s' =>
      match rstrip s' with
      | [] => if is_whitespace c then [] else [c]
      | r => c :: r
      end
  | [] => []
  end.

(** [s.strip()]. *)
Definition strip (s : str) : str := rstrip (lstrip s).

(** [sep.join(parts)]. *)
Fixpoint join (sep : str) (parts : list str) : str :=
  match parts with
  | [] => []
  | [p] => p
  | p :: ps => p ++ sep ++ join sep ps
  end.

(** A character of the ASCII range. *)
Definition is_ascii (c : N) : bool := (c <? 128)%N.

(** What a file opened for reading in text mode (the default [newline=None])
    makes of the text it holds: a carriage return, with the line feed behind
    it if there is one, is read as one line feed. *)
Fixpoint universal_newlines (s : str) : str :=
  match s with
  | [] => []
  | c :: s' =>
      if (c =? 13)%N then
        10%N :: match s' with
                | d :: s'' =>
                    if (d =? 10)%N then universal_newlines s'' else universal_newlines s'
                | [] => []
                end
      else c :: universal_newlines s'
  end.

(** The longest prefix of characters that satisfy [f]. *)
Fixpoint take_while (f : N -> bool) (s : str) : str :=
  match s with
  | c :: s' => if f c then c :: take_while f s' else []
  | [] => []
  end.

(** [width] lower-case hexadecimal digits of [c], as [%0<width>x] prints
    them. *)
Fixpoint hex_digits (width : nat) (c : N) : str :=
  match width with
  | O => []
  | S k => hex_digits k (c / 16) ++ [if (c mod 16 <? 10)%N then 48 + c mod 16 else 87 + c mod 16]%N
  end.

(** ** Python values as [json] and the transcript library hand them over *)

Inductive pyval :=
| PNone
| PBool (b : bool)
| PInt (z : Z)
| PFloat (f : float)
| PStr (s : str)
| PList (l : list pyval)
| PDict (d : gmap str pyval).

(** Truth value of an object ([not v] is its negation). *)
Definition truthy (v : pyval) : bool :=
  match v with
  | PNone => false
  | PBool b => b
  | PInt z => negb (z =? 0)%Z
  | PFloat f => negb (PrimFloat.eqb f 0%float)
  | PStr s => negb (Nat.eqb (length s) 0)
  | PList l => negb (Nat.eqb (length l) 0)
  | PDict d => negb (Nat.eqb (size d) 0)
  end.

(** ** Exceptions *)

Inductive exc_class :=
| ValueError
| EnvironmentError
| TypeError
| KeyError
| IndexError
| AttributeError
| HTTPError (status_code : Z)
| UnicodeEncodeError            (* derived from [ValueError] *)
| OtherValueError (name : str)  (* any other class derived from [ValueError]:
                                   [JSONDecodeError], ... *)
| OtherException (name : str)   (* any other class derived from [Exception] *)
| BaseOnly (name : str).        (* [KeyboardInterrupt], [SystemExit], ... *)

(** A raised exception: its class and [str(e)]. *)
Record exn := Exn { exn_class : exc_class; exn_str : str }.

(** What [except Exception] catches. *)
Definition is_Exception (e : exn) : bool :=
  match exn_class e with
  | BaseOnly _ => false
  | _ => true
  end.

(** How a call ends.  [Diverge] stands for a loop that is still running when
    its iteration budget is spent; no Python value corresponds to it. *)
Inductive outcome (A : Type) :=
| Return (a : A)
| Raise (e : exn)
| Diverge.
Arguments Return {A} a.
Arguments Raise {A} e.
Arguments Diverge {A}.

(** ** The world outside the interpreter *)

Record response := Response {
  status_code : Z;
  reason : str;
  resp_url : str;
  resp_json : exn + pyval          (* what [resp.json()] does *)
}.

Inductive event :=
| EvRead (path : str)
| EvWrite (path : str) (data : str)
| EvPrint (line : str)
| EvTranscript (video_id : str) (languages : list str)
| EvGet (url : str).

Record world := World {
  (* [open(p, encoding="utf-8").read()]: the decoded text, or the error *)
  fs : str -> exn + str;
  (* a name for the file a path leads to: two paths that reach one file
     (through [.], a doubled slash, a link) have the same *)
  file_of : str -> str;
  (* the error [open(p, 'w', encoding='utf-8')] raises, if any; a file that
     opens is taken to hold what is written to it (the disk is not full) *)
  open_w_error : str -> option exn;
  (* [YouTubeTranscriptApi().fetch(video_id=v, languages=ls).to_raw_data()] *)
  transcript_service : str -> list str -> exn + list (gmap str pyval);
  (* [requests.get(url)] *)
  http : str -> exn + response;
  (* [os.getenv(name)] *)
  getenv : str -> option str;
  (* the error [sys.stdout] raises when a text with a character outside
     ASCII is written to it, if any: the encoding of the stream may lack a
     character ([UnicodeEncodeError]) *)
  stdout_error : str -> option exn;
  (* what has been done so far, oldest first *)
  events : list event
}.

Definition log (ev : event) (w : world) : world :=
  World (fs w) (file_of w) (open_w_error w) (transcript_service w) (http w) (getenv w)
        (stdout_error w) (events w ++ [ev]).

(** The file [p] leads to now reads [data], under every path that leads to
    it. *)
Definition set_file (p : str) (data : exn + str) (w : world) : world :=
  World (fun q => if decide (file_of w q = file_of w p) then data else fs w q)
        (file_of w) (open_w_error w) (transcript_service w) (http w) (getenv w)
        (stdout_error w) (events w).

(** ** Computations: state passing with exceptions *)

Definition M (A : Type) : Type := world -> outcome A * world.

Definition ret {A} (a : A) : M A := fun w => (Return a, w).
Definition raise {A} (e : exn) : M A := fun w => (Raise e, w).
Definition bind {A B} (m : M A) (k : A -> M B) : M B :=
  fun w =>
    match m w with
    | (Return a, w') => k a w'
    | (Raise e, w') => (Raise e, w')
    | (Diverge, w') => (Diverge, w')
    end.

Notation "'let*' x ':=' m 'in' k" := (bind m (fun x => k))
  (at level 10, x name, m at level 100, k at level 200).
Notation "m ';;' k" := (bind m (fun _ => k))
  (at level 100, k at level 200, right associativity).

(** [try: body  except Exception as e: handler(e)]. *)
Definition try_except {A} (body : M A) (handler : exn -> M A) : M A :=
  fun w =>
    match body w with
    | (Raise e, w') => if is_Exception e then handler e w' else (Raise e, w')
    | r => r
    end.

Definition of_sum {A} (r : exn + A) : outcome A :=
  match r with
  | inl e => Raise e
  | inr a => Return a
  end.

(** [open(path, encoding="utf-8").read()]. *)
Definition open_read (path : str) : M str :=
  fun w => (of_sum (fs w path), log (EvRead path) w).

(** The error of [print(line)], if any.  Standard output takes every ASCII
    text; for any other text the stream decides. *)
Definition print_error (w : world) (line : str) : option exn :=
  if forallb is_ascii line then None else stdout_error w line.
Arguments print_error : simpl never.

(** [print(line)]: the text is encoded before anything is written, so a line
    the stream refuses leaves no trace. *)
Definition print (line : str) : M unit :=
  fun w =>
    match print_error w line with
    | Some e => (Raise e, w)
    | None => (Return tt, log (EvPrint line) w)
    end.

(** ** [YouTubeClient.chunk_text] *)

(** The [while start < len(text)] loop, run for at most [fuel] iterations;
    [None] when the budget is spent with the loop condition still true. *)
Fixpoint chunk_loop (fuel : nat) (text : str) (chunk_size overlap_size : Z)
    (start : Z) (chunks : list str) : option (list str) :=
  if (start <? len text)%Z then
    match fuel with
    | O => None
    | S fuel' =>
        let end_ := (start + chunk_size)%Z in
        let chunks := chunks ++ [py_slice text start end_] in
        let start := (end_ - overlap_size)%Z in
        chunk_loop fuel' text chunk_size overlap_size start chunks
    end
  else Some chunks.

Definition run_loop {A} (r : option A) : M A :=
  fun w => (match r with Some a => Return a | None => Diverge end, w).

Definition chunk_text (file_path : str) (chunk_size overlap_size : Z) : M (list str) :=
  if (overlap_size >=? chunk_size)%Z then
    raise (Exn ValueError (py "Overlap must be less than chunk size"))
  else
    let chunks := [] in
    let* text := open_read file_path in
    let start := 0%Z in
    run_loop (chunk_loop (length text) text chunk_size overlap_size start chunks).

(** ** [YouTubeClient.extract_video_id] *)

(** One position of an alternative of the pattern: a literal character
    (escaped or not), or [.], which matches anything but a newline. *)
Inductive atom :=
| Lit (c : N)
| Dot.

Definition atom_matches (a : atom) (c : N) : bool :=
  match a with
  | Lit x => (x =? c)%N
  | Dot => negb (c =? 10)%N
  end.

(** The literal characters of an ASCII string. *)
Definition lits (s : string) : list atom := Lit <$> py s.

(** The alternatives of the non-capturing group, in the order written. *)
Definition markers : list (list atom) :=
  [ lits "v=";
    lits "/videos/";
    lits "youtu" ++ [Dot] ++ lits "be/";
    lits "/v/";
    lits "/e/";
    lits "/watch?v=";
    lits "&v=";
    lits "/embed/";
    lits "%2Fvideos%2F";
    lits "embed%2F";
    lits "youtu" ++ [Dot] ++ lits "be%2F";
    lits "%2Fv%2F";
    lits "%2Fe%2F";
    lits "youtube" ++ [Dot] ++ lits "com/embed/";
    lits "youtube" ++ [Dot] ++ lits "com/v/";
    lits "youtube" ++ [Dot] ++ lits "com/watch?v=" ].

(** The characters the class of the capturing group excludes:
    [#], [&], [?], newline and [/]. *)
Definition delimiters : list N := [35; 38; 63; 10; 47]%N.

(** The class [[^#\&\?\n\/]]. *)
Definition id_char (c : N) : bool := negb (bool_decide (c ∈ delimiters)).

(** An alternative matched at the head of [s]: what is left of [s]. *)
Fixpoint match_atoms (alt : list atom) (s : str) : option str :=
  match alt, s with
  | [], _ => Some s
  | a :: alt', c :: s' => if atom_matches a c then match_atoms alt' s' else None
  | _ :: _, [] => None
  end.

(** The longest run of class characters at the head of [s]. *)
Fixpoint id_run (s : str) : str :=
  match s with
  | c :: s' => if id_char c then c :: id_run s' else []
  | [] => []
  end.

(** The capturing group [(...+)], greedy and last in the pattern: the longest
    run at the head of [s], which has to hold one character at least. *)
Definition match_group (s : str) : option str :=
  match id_run s with
  | [] => None
  | g => Some g
  end.

(** One alternative and the group behind it, at the head of [s]. *)
Definition match_with (alt : list atom) (s : str) : option str :=
  match_atoms alt s ≫= match_group.

(** The whole pattern tried at the head of [s]: the alternatives in order,
    going on to the next one when the group cannot match behind one. *)
Fixpoint match_pattern (alts : list (list atom)) (s : str) : option str :=
  match alts with
  | [] => None
  | alt :: alts' =>
      match match_with alt s with
      | Some g => Some g
      | None => match_pattern alts' s
      end
  end.

(** [re.search(pattern, s)], reduced to [group(1)] of the match: the start
    positions are tried from the left. *)
Fixpoint re_search (s : str) : option str :=
  match match_pattern markers s with
  | Some g => Some g
  | None =>
      match s with
      | [] => None
      | _ :: s' => re_search s'
      end
  end.

Definition extract_video_id (youtube_url : str) : outcome str :=
  match re_search youtube_url with
  | None => Raise (Exn ValueError (py "Could not extract video ID from URL."))
  | Some group1 => Return group1
  end.

(** The pattern matched at offset [p] of [s] through alternative number [k]:
    the group captured there. *)
Definition matches_at (k p : nat) (s : str) : option str :=
  if decide (p <= length s) then
    alt ← markers !! k; match_with alt (drop p s)
  else None.

(** A marker occurs in [s]: some alternative matches at some offset. *)
Definition marker_occurs (k : nat) (s : str) : Prop :=
  exists (alt : list atom) (p : nat),
    markers !! k = Some alt /\ p <= length s /\ is_Some (match_atoms alt (drop p s)).

(** The reading of the precedence rule that takes the order of the
    alternatives before the position in the string: the first alternative of
    the list that matches anywhere (with an identifier behind it) decides, at
    its leftmost such place. *)
Fixpoint search_one (alt : list atom) (s : str) : option str :=
  match match_with alt s with
  | Some g => Some g
  | None =>
      match s with
      | [] => None
      | _ :: s' => search_one alt s'
      end
  end.

Fixpoint first_by_precedence (alts : list (list atom)) (s : str) : option str :=
  match alts with
  | [] => None
  | alt :: alts' =>
      match search_one alt s with
      | Some g => Some g
      | None => first_by_precedence alts' s
      end
  end.

(** Two alternatives clash when, at some common position, they ask for two
    different literal characters: they cannot both match at one place. *)
Fixpoint clash (a b : list atom) : bool :=
  match a, b with
  | Lit x :: a', Lit y :: b' => negb (x =? y)%N || clash a' b'
  | _ :: a', _ :: b' => clash a' b'
  | _, _ => false
  end.

(** What may stand behind a captured identifier: nothing, or a delimiter. *)
Definition ends_identifier (after : str) : Prop :=
  after = [] \/ exists d after', after = d :: after' /\ d ∈ delimiters.

(** ** Operations on Python values *)

(** A pure step inside a computation. *)
Definition lift {A} (r : outcome A) : M A := fun w => (r, w).

(** [repr(key)] of a string free of quotes and escapes. *)
Definition repr (key : str) : str := py "'" ++ key ++ py "'".

(** [d[key]] on a dictionary. *)
Definition dict_getitem (d : gmap str pyval) (key : str) : outcome pyval :=
  match d !! key with
  | Some v => Return v
  | None => Raise (Exn KeyError (repr key))
  end.

(** [type(v).__name__]. *)
Definition type_name (v : pyval) : str :=
  match v with
  | PNone => py "NoneType"
  | PBool _ => py "bool"
  | PInt _ => py "int"
  | PFloat _ => py "float"
  | PStr _ => py "str"
  | PList _ => py "list"
  | PDict _ => py "dict"
  end.

Definition not_subscriptable (v : pyval) : exn :=
  Exn TypeError (py "'" ++ type_name v ++ py "' object is not subscriptable").

(** [v[key]] for a string [key]: only a dictionary can be indexed by one
    (the texts are those of CPython 3.11). *)
Definition getitem_key (v : pyval) (key : str) : outcome pyval :=
  match v with
  | PDict d => dict_getitem d key
  | PList _ => Raise (Exn TypeError (py "list indices must be integers or slices, not str"))
  | PStr _ => Raise (Exn TypeError (py "string indices must be integers, not 'str'"))
  | _ => Raise (not_subscriptable v)
  end.

(** [v[0]].  A dictionary read from JSON has string keys only. *)
Definition getitem_0 (v : pyval) : outcome pyval :=
  match v with
  | PList l =>
      match l with
      | x :: _ => Return x
      | [] => Raise (Exn IndexError (py "list index out of range"))
      end
  | PStr s =>
      match s with
      | c :: _ => Return (PStr [c])
      | [] => Raise (Exn IndexError (py "string index out of range"))
      end
  | PDict _ => Raise (Exn KeyError (py "0"))
  | _ => Raise (not_subscriptable v)
  end.

(** What calling [v.get] raises when [v] is no dictionary. *)
Definition no_get (v : pyval) : exn :=
  Exn AttributeError (py "'" ++ type_name v ++ py "' object has no attribute 'get'").

(** [data.get(key)]: a method of dictionaries. *)
Definition py_get (data : pyval) (key : str) : outcome pyval :=
  match data with
  | PDict d => Return (default PNone (d !! key))
  | _ => Raise (no_get data)
  end.

(** [v + s] for a string [s]: defined when [v] is a string; a list only
    takes a list. *)
Definition add_str (v : pyval) (s : str) : outcome str :=
  match v with
  | PStr t => Return (t ++ s)
  | PList _ =>
      Raise (Exn TypeError
                 (py "can only concatenate list (not " ++ [34%N] ++ py "str" ++ [34%N]
                  ++ py ") to list"))
  | _ =>
      Raise (Exn TypeError
                 (py "unsupported operand type(s) for +: '" ++ type_name v ++ py "' and 'str'"))
  end.

(** ** [YouTubeClient.__init__] *)

Record YouTubeClient := { api_key : str }.

Definition BASE_VIDEO_API : str := py "https://www.googleapis.com/youtube/v3/videos".
Definition THUMB_FIELD : str := py "thumbnails".
Definition DEFAULT_LANG : str := py "en".

(** The truth value of an optional string ([None] and the empty string are
    false). *)
Definition nonempty (o : option str) : bool :=
  match o with
  | Some (_ :: _) => true
  | _ => false
  end.

Definition init (api_key : option str) : M YouTubeClient :=
  fun w =>
    let key := if nonempty api_key then api_key else getenv w (py "YOUTUBE_SEARCH_API") in
    match key with
    | Some (c :: k) => (Return {| api_key := c :: k |}, w)
    | _ => (Raise (Exn EnvironmentError
                       (py "API key must be passed or YOUTUBE_SEARCH_API must be set.")), w)
    end.

(** ** [YouTubeClient.get_transcript] *)

Definition is_surrogate (c : N) : bool := ((55296 <=? c) && (c <=? 57343))%N.

(** A character as the text of a [UnicodeEncodeError] shows it. *)
Definition char_escape (c : N) : str :=
  (if c <? 256 then py "\x" ++ hex_digits 2 c
   else if c <? 65536 then py "\u" ++ hex_digits 4 c
   else py "\U" ++ hex_digits 8 c)%N.

(** The [UnicodeEncodeError] a codec raises for [s] under [errors='strict']:
    it reports the first run of characters the codec lacks ([missing]). *)
Definition unicode_encode_error (codec reason : str) (missing : N -> bool) (s : str) : exn :=
  let start := length (take_while (fun c => negb (missing c)) s) in
  let run := take_while missing (drop start s) in
  Exn UnicodeEncodeError
      (py "'" ++ codec ++ py "' codec can't encode "
       ++ match run with
          | [c] => py "character '" ++ char_escape c ++ py "' in position " ++ py (pretty start)
          | _ => py "characters in position " ++ py (pretty start) ++ py "-"
                 ++ py (pretty (start + length run - 1))
          end
       ++ py ": " ++ reason).

(** The error of [s.encode('utf-8')]: of the characters a Python string can
    hold, UTF-8 lacks the surrogates. *)
Definition encode_error (s : str) : exn :=
  unicode_encode_error (py "utf-8") (py "surrogates not allowed") is_surrogate s.

(** [with open(path, 'w', encoding='utf-8') as f: f.write(data)]: opening
    truncates the file; text that cannot be encoded is not written.  What
    has been written is what a later read decodes, newlines translated (on a
    POSIX system, where writing translates none). *)
Definition open_write (path data : str) : M unit :=
  fun w =>
    match open_w_error w path with
    | Some e => (Raise e, w)
    | None =>
        if existsb is_surrogate data
        then (Raise (encode_error data), log (EvWrite path []) (set_file path (inr []) w))
        else (Return tt,
              log (EvWrite path data) (set_file path (inr (universal_newlines data)) w))
    end.

(** [YouTubeTranscriptApi().fetch(video_id=..., languages=...).to_raw_data()]. *)
Definition fetch_raw_data (video_id : str) (languages : list str)
    : M (list (gmap str pyval)) :=
  fun w => (of_sum (transcript_service w video_id languages),
            log (EvTranscript video_id languages) w).

(** The [for entry in transcript_data] loop. *)
Fixpoint combine_entries (transcript_data : list (gmap str pyval))
    (transcript_text : str) : M str :=
  match transcript_data with
  | [] => ret transcript_text
  | entry :: rest =>
      let* t := lift (dict_getitem entry (py "text")) in
      let* piece := lift (add_str t (py " ")) in
      combine_entries rest (transcript_text ++ piece)
  end.

(** [output_file] is [None] for Python's [None]; so is the result. *)
Definition get_transcript (video_id : str) (output_file : option str) (language : str)
    : M (option str) :=
  try_except
    (let* transcript_data := fetch_raw_data video_id [language] in
     let* transcript_text := combine_entries transcript_data [] in
     let transcript_text := strip transcript_text in
     (if nonempty output_file
      then open_write (default [] output_file) transcript_text
      else ret tt) ;;
     ret (Some transcript_text))
    (fun e => print (py "Error: " ++ exn_str e) ;; ret None).

(** ** [YouTubeClient.fetch_video_snippet] *)

(** [urllib.parse.quote_plus]: letters, digits and [_.-~] stay, a space
    becomes [+], anything else is the percent-encoding of its UTF-8 bytes. *)
Definition is_unreserved (c : N) : bool :=
  ((65 <=? c) && (c <=? 90) || (97 <=? c) && (c <=? 122) || (48 <=? c) && (c <=? 57)
   || (c =? 95) || (c =? 46) || (c =? 45) || (c =? 126))%N.

Definition hex_digit (n : N) : N := (if n <? 10 then 48 + n else 55 + n)%N.

Definition percent (byte : N) : str :=
  [37%N; hex_digit (byte / 16); hex_digit (byte mod 16)].

Definition utf8 (c : N) : option (list N) :=
  (if c <? 128 then Some [c]
   else if c <? 2048 then Some [192 + c / 64; 128 + c mod 64]
   else if c <? 65536 then
     if is_surrogate c then None
     else Some [224 + c / 4096; 128 + (c / 64) mod 64; 128 + c mod 64]
   else if c <? 1114112 then
     Some [240 + c / 262144; 128 + (c / 4096) mod 64; 128 + (c / 64) mod 64; 128 + c mod 64]
   else None)%N.

Definition quote_char (c : N) : option str :=
  if is_unreserved c then Some [c]
  else if (c =? 32)%N then Some [43%N]
  else bytes ← utf8 c; Some (concat (percent <$> bytes)).

Definition quote_plus (s : str) : option str :=
  (fun pieces => concat pieces) <$> mapM quote_char s.

(** [quote_via(s)] inside [urlencode]: the string is encoded as a whole,
    and the error is the codec's. *)
Definition quote_via (s : str) : exn + str :=
  match quote_plus s with
  | Some quoted => inr quoted
  | None => inl (encode_error s)
  end.

(** The [for k, v in query] loop of [urlencode]: each key and each value is
    quoted in turn, and the first that cannot be stops the loop. *)
Fixpoint urlencode_pairs (query : list (str * str)) : exn + list str :=
  match query with
  | [] => inr []
  | (k, v) :: rest =>
      match quote_via k with
      | inl e => inl e
      | inr k' =>
          match quote_via v with
          | inl e => inl e
          | inr v' =>
              match urlencode_pairs rest with
              | inl e => inl e
              | inr l => inr ((k' ++ py "=" ++ v') :: l)
              end
          end
      end
  end.

(** [urlencode(query)] for a dictionary of strings, in insertion order. *)
Definition urlencode (query : list (str * str)) : outcome str :=
  match urlencode_pairs query with
  | inr pairs => Return (join (py "&") pairs)
  | inl e => Raise e
  end.

(** [requests.get(url)]. *)
Definition requests_get (url : str) : M response :=
  fun w => (of_sum (http w url), log (EvGet url) w).

(** [resp.raise_for_status()]: an error for the statuses 400 to 599. *)
Definition raise_for_status (resp : response) : M unit :=
  let code := status_code resp in
  if ((400 <=? code) && (code <? 500))%Z then
    raise (Exn (HTTPError code)
               (py (pretty code) ++ py " Client Error: " ++ reason resp
                ++ py " for url: " ++ resp_url resp))
  else if ((500 <=? code) && (code <? 600))%Z then
    raise (Exn (HTTPError code)
               (py (pretty code) ++ py " Server Error: " ++ reason resp
                ++ py " for url: " ++ resp_url resp))
  else ret tt.

(** The URL the request goes to. *)
Definition snippet_url (self : YouTubeClient) (video_id : str) : outcome str :=
  match urlencode [(py "part", py "snippet"); (py "id", video_id); (py "key", api_key self)] with
  | Return params => Return (BASE_VIDEO_API ++ py "?" ++ params)
  | Raise e => Raise e
  | Diverge => Diverge
  end.

Definition fetch_video_snippet (self : YouTubeClient) (video_id : str) : M pyval :=
  let* url := lift (snippet_url self video_id) in
  let* resp := requests_get url in
  raise_for_status resp ;;
  let* data := lift (of_sum (resp_json resp)) in
  let* items := lift (py_get data (py "items")) in
  if negb (truthy items) then
    raise (Exn ValueError (py "Video snippet not found."))
  else
    let* items := lift (getitem_key data (py "items")) in
    let* item := lift (getitem_0 items) in
    lift (getitem_key item (py "snippet")).

(** ** Sample worlds *)

Definition no_such_file (path : str) : exn :=
  Exn (OtherException (py "FileNotFoundError"))
      (py "[Errno 2] No such file or directory: " ++ repr path).

Definition unreachable : exn :=
  Exn (OtherException (py "ConnectionError")) (py "Network is unreachable").

(** A world whose file system holds one readable file and which is offline. *)
Definition world_with_file (path text : str) : world :=
  World (fun p => if decide (p = path) then inr text else inl (no_such_file p))
        (fun p => p)
        (fun _ => None)
        (fun _ _ => inl unreachable)
        (fun _ => inl unreachable)
        (fun _ => None)
        (fun _ => None)
        [].

(** A world whose transcript service answers every request the same way. *)
Definition world_with_transcript (answer : exn + list (gmap str pyval)) : world :=
  World (fun p => inl (no_such_file p))
        (fun p => p)
        (fun _ => None)
        (fun _ _ => answer)
        (fun _ => inl unreachable)
        (fun _ => None)
        (fun _ => None)
        [].

Definition segment (text : str) (start duration : float) : gmap str pyval :=
  <[py "text" := PStr text]>
    (<[py "start" := PFloat start]> (<[py "duration" := PFloat duration]> ∅)).

Definition hello_world : list (gmap str pyval) :=
  [segment (py "Hello") 0%float 1.5%float; segment (py "world") 1.5%float 2%float].

Definition no_transcript : exn :=
  Exn (OtherException (py "NoTranscriptFound"))
      (py "No transcripts were found for any of the requested language codes").

(** A world whose every HTTP request gets the same response. *)
Definition world_with_response (resp : response) : world :=
  World (fun p => inl (no_such_file p))
        (fun p => p)
        (fun _ => None)
        (fun _ _ => inl unreachable)
        (fun _ => inr resp)
        (fun _ => None)
        (fun _ => None)
        [].

(** Standard output with the ASCII encoding, and with UTF-8. *)
Definition ascii_stdout (line : str) : option exn :=
  if forallb is_ascii line then None
  else Some (unicode_encode_error (py "ascii") (py "ordinal not in range(128)")
                                  (fun c => negb (is_ascii c)) line).

Definition utf8_stdout (line : str) : option exn :=
  if existsb is_surrogate line then Some (encode_error line) else None.

Definition with_stdout (stdout : str -> option exn) (w : world) : world :=
  World (fs w) (file_of w) (open_w_error w) (transcript_service w) (http w) (getenv w)
        stdout (events w).



(** A failure of the transcript service whose text is not ASCII. *)
Definition no_transcript_fr : exn :=
  Exn (OtherException (py "NoTranscriptFound"))
      (py "Aucune transcription trouv" ++ [233%N] ++ py "e").

Definition sample_client : YouTubeClient := {| api_key := py "KEY" |}.

Definition sample_url : str :=
  py "https://www.googleapis.com/youtube/v3/videos?part=snippet&id=abc123&key=KEY".

Definition no_items : pyval := PDict (<[py "items" := PList []]> ∅).

Definition json_error : exn :=
  Exn (OtherValueError (py "JSONDecodeError")) (py "Expecting value: line 1 column 1 (char 0)").

(** A final response that is neither a success nor a client or server error. *)
Definition not_modified : response :=
  Response 304 (py "Not Modified") sample_url (inl json_error).

(** ** Reassembling a text from its chunks *)


(** ** [YouTubeClient.get_video_title], [get_thumbnail_url], [download_thumbnail] *)

(** [data.get(key, dflt)]. *)
Definition py_get_or (data : pyval) (key : str) (dflt : pyval) : outcome pyval :=
  match data with
  | PDict d => Return (default dflt (d !! key))
  | _ => Raise (no_get data)
  end.

Definition get_video_title (self : YouTubeClient) (video_id : str) : M pyval :=
  let* snippet := fetch_video_snippet self video_id in
  lift (py_get_or snippet (py "title") (PStr [])).

Definition get_thumbnail_url (self : YouTubeClient) (video_id : str) : M pyval :=
  let* snippet := fetch_video_snippet self video_id in
  let* thumbnails := lift (py_get_or snippet THUMB_FIELD (PDict ∅)) in
  let* medium_thumb := lift (py_get_or thumbnails (py "medium") (PDict ∅)) in
  lift (py_get medium_thumb (py "url")).

(** What [download_thumbnail] uses of the imaging library and of
    [requests] beyond a plain request. *)
Record imaging := Imaging {
  image : Type;
  (* [Image.open(BytesIO(resp.content))] *)
  Image_open : response -> exn + image;
  (* [img.save(save_path)] *)
  Image_save : image -> str -> M unit;
  (* the text of the error [requests.get] raises, before anything is sent,
     for a URL that is not a string *)
  invalid_url_text : pyval -> str
}.

(** [requests.get(url)] for a value out of the JSON response: a URL that is
    no string is refused with a [RequestException] (no scheme, or no
    connection adapter) and nothing is sent. *)
Definition requests_get_value (lib : imaging) (url : pyval) : M response :=
  match url with
  | PStr u => requests_get u
  | _ => raise (Exn (OtherException (py "RequestException")) (invalid_url_text lib url))
  end.

(** The [try] statement of [download_thumbnail]. *)
Definition try_download (lib : imaging) (thumb_url : pyval) (save_path : str)
    : M (option str) :=
  try_except
    (let* resp := requests_get_value lib thumb_url in
     raise_for_status resp ;;
     let* img := lift (of_sum (Image_open lib resp)) in
     Image_save lib img save_path ;;
     ret (Some save_path))
    (fun e => print (py "Image error: " ++ exn_str e) ;; ret None).

(** The result is [None] for Python's [None]. *)
Definition download_thumbnail (lib : imaging) (self : YouTubeClient)
    (video_id save_path : str) : M (option str) :=
  let* thumb_url := get_thumbnail_url self video_id in
  if negb (truthy thumb_url) then ret None
  else try_download lib thumb_url save_path.

(** An imaging library that decodes nothing. *)
Definition no_imaging : imaging :=
  Imaging unit
          (fun _ => inl (Exn (OtherException (py "UnidentifiedImageError"))
                             (py "cannot identify image file")))
          (fun _ _ => ret tt)
          (fun _ => py "Invalid URL: No scheme supplied").

(** An imaging library that accepts every body and records the save. *)
Definition any_imaging : imaging :=
  Imaging unit
          (fun _ => inr tt)
          (fun _ save_path => fun w => (Return tt, log (EvWrite save_path []) w))
          (fun _ => py "Invalid URL: No scheme supplied").

(** A snippet with a title and a medium thumbnail, and the response that
    carries it. *)
Definition sample_thumbnail_url : str := py "https://i.ytimg.com/vi/abc123/mqdefault.jpg".

Definition sample_medium : gmap str pyval :=
  <[py "url" := PStr sample_thumbnail_url]> ∅.

Definition sample_thumbnails : gmap str pyval :=
  <[py "medium" := PDict sample_medium]> ∅.

Definition sample_snippet : gmap str pyval :=
  <[py "title" := PStr (py "A talk")]> (<[py "thumbnails" := PDict sample_thumbnails]> ∅).

Definition sample_item : gmap str pyval :=
  <[py "snippet" := PDict sample_snippet]> ∅.

Definition sample_body : gmap str pyval :=
  <[py "items" := PList [PDict sample_item]]> ∅.

Definition sample_response : response :=
  Response 200 (py "OK") sample_url (inr (PDict sample_body)).

(** The characters [quote_plus] can produce. *)
Definition query_safe (c : N) : bool :=
  is_unreserved c || (c =? 43)%N || (c =? 37)%N.

(** ** [sumtube.utils.config_util] *)

Definition DEFAULTS : gmap str pyval :=
  <[py "model_name" := PStr (py "gpt-oss:20b")]>
    (<[py "temperature" := PFloat 0%float]>
       (<[py "num_cxt" := PInt (32 * 1024)]>
          (<[py "raw_text_chunk_size" := PInt (32 * 1024)]>
             (<[py "text_chunk_overlay_size" := PInt 100]> ∅)))).

(** [os.path.join(a, b)] on a POSIX system. *)
Definition path_join (a b : str) : str :=
  match b with
  | 47%N :: _ => b
  | _ =>
      match last a with
      | None => b
      | Some 47%N => a ++ b
      | Some _ => a ++ 47%N :: b
      end
  end.

(** [os.environ.get('HOME', '.')]. *)
Definition home (w : world) : str := default (py ".") (getenv w (py "HOME")).

Definition CONFIG_PATH (w : world) : str :=
  path_join (path_join (home w) (py ".config")) (py "sumtube").

Definition CONFIG_JSON (w : world) : str := path_join (CONFIG_PATH w) (py "config.json").

(** What the module uses of the operating system and of the built-in
    conversions. *)
Record platform := Platform {
  (* [os.path.exists(path)] *)
  path_exists : world -> str -> bool;
  (* [json.load(f)], from the text of the file *)
  json_load : str -> exn + pyval;
  (* the text [json.dump(obj, f, indent=4)] writes *)
  json_dump : list (str * pyval) -> str;
  (* [int(s)] *)
  py_int : str -> exn + Z;
  (* [float(s)] *)
  py_float : str -> exn + float;
  (* [str(v)], as an f-string renders [v] *)
  py_format : pyval -> str;
  (* [os.makedirs(path, exist_ok=True)] *)
  makedirs : str -> M unit
}.

(** [p[:p.rfind('/') + 1]]: [p] up to its last slash, the slash included. *)
Fixpoint up_to_last_slash (p : str) : str :=
  match p with
  | [] => []
  | c :: p' =>
      match up_to_last_slash p' with
      | [] => if (c =? 47)%N then [c] else []
      | head => c :: head
      end
  end.

(** [head.rstrip('/')]. *)
Fixpoint rstrip_slashes (s : str) : str :=
  match s with
  | c :: s' =>
      match rstrip_slashes s' with
      | [] => if (c =? 47)%N then [] else [c]
      | r => c :: r
      end
  | [] => []
  end.

(** [os.path.dirname(p)] on a POSIX system. *)
Definition dirname (p : str) : str :=
  let head := up_to_last_slash p in
  if forallb (fun c => (c =? 47)%N) head then head else rstrip_slashes head.

Definition get_config_path (os : platform) : M str :=
  fun w => (makedirs os (dirname (CONFIG_PATH w)) ;; ret (CONFIG_PATH w)) w.

(** [{**DEFAULTS, **file_defaults}]: the file's entries override. *)
Definition merge_defaults (file_defaults : pyval) : outcome (gmap str pyval) :=
  match file_defaults with
  | PDict d => Return (d ∪ DEFAULTS)
  | _ => Raise (Exn TypeError (py "'" ++ type_name file_defaults ++ py "' object is not a mapping"))
  end.

(** The file is opened without an encoding; the default one is taken to be
    UTF-8, the encoding the [fs] of a [world] speaks of. *)
Definition get_config_json (os : platform) : M (gmap str pyval) :=
  fun w =>
    if path_exists os w (CONFIG_JSON w) then
      try_except
        (let* text := open_read (CONFIG_JSON w) in
         let* file_defaults := lift (of_sum (json_load os text)) in
         lift (merge_defaults file_defaults))
        (fun e =>
           print (py "Warning: Could not read config file, using constants. Error: "
                  ++ exn_str e) ;;
           ret DEFAULTS)
        w
    else ret DEFAULTS w.

Definition eof_error : exn :=
  Exn (OtherException (py "EOFError")) (py "EOF when reading a line").

(** [input(prompt)]: the prompt is written to standard output and the next
    line of standard input, without its newline, is the result.  The
    console is taken to show the prompt: it is recorded as printed. *)
Definition input (prompt : str) (stdin : list str) : M (str * list str) :=
  fun w =>
    match stdin with
    | [] => (Raise eof_error, log (EvPrint prompt) w)
    | line :: rest => (Return (line, rest), log (EvPrint prompt) w)
    end.

(** [isinstance(v, int)]: integers and booleans. *)
Definition is_int (v : pyval) : bool :=
  match v with
  | PInt _ | PBool _ => true
  | _ => false
  end.

(** [s.lower().endswith('k')]: the characters whose lower case is [k] are
    [k], [K] and the Kelvin sign. *)
Definition ends_with_k (s : str) : bool :=
  match last s with
  | Some c => ((c =? 107) || (c =? 75) || (c =? 8490))%N
  | None => false
  end.

(** The body of the [try] of [get_input]. *)
Definition convert_input (os : platform) (default : pyval)
    (cast_type : str -> exn + pyval) (user_input : str) : exn + pyval :=
  if is_int default && ends_with_k user_input then
    match py_int os (removelast user_input) with
    | inr num_part => inr (PInt (num_part * 1024))
    | inl e => inl e
    end
  else cast_type user_input.

(** What [except ValueError] catches. *)
Definition is_ValueError (e : exn) : bool :=
  match exn_class e with
  | ValueError | UnicodeEncodeError | OtherValueError _ => true
  | _ => false
  end.

(** [get_input]: every round of the [while True] loop reads a line, so the
    loop is a recursion over the lines of standard input. *)
Fixpoint get_input (os : platform) (prompt : str) (default : pyval)
    (cast_type : str -> exn + pyval) (stdin : list str) : M (pyval * list str) :=
  fun w =>
    let w := log (EvPrint (prompt ++ py " [" ++ py_format os default ++ py "]: ")) w in
    match stdin with
    | [] => (Raise eof_error, w)
    | line :: rest =>
        let user_input := strip line in
        match user_input with
        | [] => (Return (default, rest), w)
        | _ =>
            match convert_input os default cast_type user_input with
            | inr value => (Return (value, rest), w)
            | inl e =>
                if is_ValueError e then
                  get_input os prompt default cast_type rest
                            (log (EvPrint (py "Invalid input. Please try again.")) w)
                else (Raise e, w)
            end
        end
    end.

(** [int] and [float] as [cast_type]. *)
Definition cast_int (os : platform) (s : str) : exn + pyval :=
  match py_int os s with inr n => inr (PInt n) | inl e => inl e end.

Definition cast_float (os : platform) (s : str) : exn + pyval :=
  match py_float os s with inr f => inr (PFloat f) | inl e => inl e end.

(** [for key, value in config_params.items(): print(f"{key}: {value}")]. *)
Fixpoint print_items (os : platform) (items : list (str * pyval)) : M unit :=
  match items with
  | [] => ret tt
  | (key, value) :: rest =>
      print (key ++ py ": " ++ py_format os value) ;; print_items os rest
  end.

(** [with open(target, 'w') as f: json.dump(...)] for a [target] that is a
    dictionary: [open] refuses it, and nothing is written. *)
Definition open_dict_for_writing (target : gmap str pyval) (data : str) : M unit :=
  raise (Exn TypeError (py "expected str, bytes or os.PathLike object, not dict")).

Definition interactive_set_config (os : platform) (stdin : list str)
    : M (unit * list str) :=
  let* defaults := get_config_json os in
  print (py "Enter configuration parameters (press Enter to keep default values):" ++ [10%N]) ;;
  let* shown := lift (dict_getitem defaults (py "model_name")) in
  let* answer := input (py "Model name [" ++ py_format os shown ++ py "]: ") stdin in
  let* model_name :=
    match strip answer.1 with
    | [] => lift (dict_getitem defaults (py "model_name"))
    | name => ret (PStr name)
    end in
  let* d := lift (dict_getitem defaults (py "temperature")) in
  let* temperature := get_input os (py "Temperature") d (cast_float os) answer.2 in
  let* d := lift (dict_getitem defaults (py "num_cxt")) in
  let* num_cxt := get_input os (py "Number of context tokens") d (cast_int os) temperature.2 in
  let* d := lift (dict_getitem defaults (py "raw_text_chunk_size")) in
  let* raw_text_chunk_size :=
    get_input os (py "Raw text chunk size") d (cast_int os) num_cxt.2 in
  let* d := lift (dict_getitem defaults (py "text_chunk_overlay_size")) in
  let* text_chunk_overlay_size :=
    get_input os (py "Text chunk overlay size") d (cast_int os) raw_text_chunk_size.2 in
  let config_params :=
    [(py "model_name", model_name); (py "temperature", temperature.1);
     (py "num_cxt", num_cxt.1); (py "raw_text_chunk_size", raw_text_chunk_size.1);
     (py "text_chunk_overlay_size", text_chunk_overlay_size.1)] in
  let* config_json := get_config_json os in
  open_dict_for_writing config_json (json_dump os config_params) ;;
  print ([10%N] ++ py "Final configuration saved to config.json:") ;;
  print_items os config_params ;;
  ret (tt, text_chunk_overlay_size.2).

(** A platform without a configuration file, with decimal [int] and no
    [float]. *)
Definition digits_value (s : str) : option Z :=
  match s with
  | [] => None
  | _ =>
      foldl (fun acc c =>
               n ← acc;
               if ((48 <=? c) && (c <=? 57))%N then Some (10 * n + Z.of_N (c - 48))%Z else None)
            (Some 0%Z) s
  end.

Definition bad_literal : exn := Exn ValueError (py "invalid literal").

Definition plain_platform : platform :=
  Platform (fun _ _ => false)
           (fun _ => inl json_error)
           (fun _ => [])
           (fun s => match digits_value s with Some n => inr n | None => inl bad_literal end)
           (fun _ => inl bad_literal)
           (fun _ => [])
           (fun _ => ret tt).

(** A world with no file, no network and no environment. *)
Definition empty_world : world :=
  World (fun p => inl (no_such_file p))
        (fun p => p)
        (fun _ => None)
        (fun _ _ => inl unreachable)
        (fun _ => inl unreachable)
        (fun _ => None)
        (fun _ => None)
        [].


(** ** Computations that write nothing *)

(** From [w] to [w'] no file has changed and no write has been recorded. *)
Definition no_write (w w' : world) : Prop :=
  fs w' = fs w
  /\ forall path data, EvWrite path data ∈ events w' -> EvWrite path data ∈ events w.

Definition is_write (ev : event) : bool :=
  match ev with
  | EvWrite _ _ => true
  | _ => false
  end.

(** A computation that writes nothing, from whatever world it starts. *)
Definition quiet {A} (m : M A) : Prop := forall w, no_write w (m w).2.

(** A computation that never returns a value. *)
Definition failing {A} (m : M A) : Prop := forall w a, (m w).1 <> Return a.

(** * Properties *)

(** ** Standard output *)

Lemma print_taken (line : str) (w : world) :
  print_error w line = None -> print line w = (Return tt, log (EvPrint line) w).
Proof. intros Hline. unfold print. by rewrite Hline. Qed.

Lemma print_refused (line : str) (w : world) (e : exn) :
  print_error w line = Some e -> print line w = (Raise e, w).
Proof. intros Hline. unfold print. by rewrite Hline. Qed.

Lemma print_error_log (ev : event) (w : world) (line : str) :
  print_error (log ev w) line = print_error w line.
Proof. reflexivity. Qed.

(** Case analysis on what standard output does with the line about to be
    printed. *)
Ltac case_print e' Hp :=
  match goal with
  | |- context [print_error ?w0 ?line] => destruct (print_error w0 line) as [e' |] eqn:Hp
  end.

(** [try: body  except Exception as e: print(prefix + str(e)); return a]:
    the handler's [print] is outside every [try], so its error, if it has
    one, is the outcome. *)
Lemma try_except_print {A} (body : M A) (prefix : str) (a : A) (w : world) :
  try_except body (fun e => print (prefix ++ exn_str e) ;; ret a) w
  = match body w with
    | (Raise e, w') =>
        if is_Exception e then
          match print_error w' (prefix ++ exn_str e) with
          | Some e' => (Raise e', w')
          | None => (Return a, log (EvPrint (prefix ++ exn_str e)) w')
          end
        else (Raise e, w')
    | r => r
    end.
Proof.
  unfold try_except, bind, print, ret.
  destruct (body w) as [[r | e |] w']; [done | | done].
  destruct (is_Exception e); [| done].
  by destruct (print_error w' (prefix ++ exn_str e)).
Qed.

Example universal_newlines_sample :
  universal_newlines (py "a" ++ [13%N] ++ py "b" ++ [13%N; 10%N] ++ py "c" ++ [10%N; 13%N] ++ py "d")
  = py "a" ++ [10%N] ++ py "b" ++ [10%N] ++ py "c" ++ [10%N; 10%N] ++ py "d".
Proof. reflexivity. Qed.

(** The texts of the errors of [v.get], [v[key]] and [v + " "] name the
    type of [v], as CPython does. *)
Example type_error_texts :
  py_get PNone (py "url")
  = Raise (Exn AttributeError (py "'NoneType' object has no attribute 'get'"))
  /\ py_get_or (PList []) (py "medium") (PDict ∅)
     = Raise (Exn AttributeError (py "'list' object has no attribute 'get'"))
  /\ getitem_key (PInt 1) (py "snippet")
     = Raise (Exn TypeError (py "'int' object is not subscriptable"))
  /\ getitem_0 PNone = Raise (Exn TypeError (py "'NoneType' object is not subscriptable"))
  /\ add_str (PInt 1) (py " ")
     = Raise (Exn TypeError (py "unsupported operand type(s) for +: 'int' and 'str'"))
  /\ add_str PNone (py " ")
     = Raise (Exn TypeError (py "unsupported operand type(s) for +: 'NoneType' and 'str'"))
  /\ add_str (PList []) (py " ")
     = Raise (Exn TypeError (py "can only concatenate list (not " ++ [34%N] ++ py "str"
                             ++ [34%N] ++ py ") to list")).
Proof. repeat split. Qed.

(** ** Chunking *)

(** C4: when [overlap_size >= chunk_size] the call raises the configuration
    error ([ValueError], "Overlap must be less than chunk size") whatever the
    file system holds, and the world is returned untouched: the file is not
    read, no event is recorded and no chunk sequence is produced. *)
Theorem chunk_text_invalid_configuration :
  forall (w : world) (file_path : str) (chunk_size overlap_size : Z),
    (overlap_size >= chunk_size)%Z ->
    chunk_text file_path chunk_size overlap_size w
    = (Raise (Exn ValueError (py "Overlap must be less than chunk size")), w).
Proof.
  intros w file_path chunk_size overlap_size Hge.
  unfold chunk_text.
  destruct (Z.geb_spec overlap_size chunk_size) as [_ | Hlt].
  - reflexivity.
  - lia.
Qed.

Lemma chunk_text_invalid_configuration_witness :
  let w := world_with_file (py "t.txt") (py "abcdef") in
  (4 >= 4)%Z
  /\ chunk_text (py "missing.txt") 4 4 w
     = (Raise (Exn ValueError (py "Overlap must be less than chunk size")), w).
Proof.
  intros w. split; [lia |].
  apply (chunk_text_invalid_configuration w (py "missing.txt") 4 4). lia.
Defined.

(** A slice with non-negative bounds is [take] after [drop]. *)
Lemma py_slice_take_drop {A} (l : list A) (s c : nat) :
  py_slice l (Z.of_nat s) (Z.of_nat s + Z.of_nat c) = take c (drop s l).
Proof.
  unfold py_slice, slice_bound, len.
  destruct (Z.ltb_spec (Z.of_nat s) 0) as [Hs | _]; [lia |].
  destruct (Z.ltb_spec (Z.of_nat s + Z.of_nat c) 0) as [Hs | _]; [lia |].
  destruct (decide (s < length l)) as [Hlt | Hge].
  - rewrite (Z.min_l (Z.of_nat s)) by lia. rewrite Nat2Z.id.
    destruct (decide (s + c <= length l)) as [Hin | Hout].
    + rewrite Z.min_l by lia. f_equal. lia.
    + rewrite Z.min_r by lia.
      rewrite (take_ge (drop s l) c) by (rewrite length_drop; lia).
      apply take_ge. rewrite length_drop. lia.
  - rewrite !Z.min_r by lia. rewrite Z.sub_diag. simpl.
    rewrite (drop_ge l s) by lia. by rewrite take_nil.
Qed.

(** The loop, once past the guard, stops within [len(text) - start]
    iterations; it emits the slices at [start], [start + step], ... as long
    as the cursor is inside the text. *)
Lemma chunk_loop_run (text : str) (chunk_size overlap_size : Z) :
  (overlap_size < chunk_size)%Z ->
  forall (fuel : nat) (start : Z) (acc : list str),
    (len text - start <= Z.of_nat fuel)%Z ->
    exists k : nat,
      chunk_loop fuel text chunk_size overlap_size start acc
      = Some (acc ++ ((fun i : nat =>
                         let s := (start + Z.of_nat i * (chunk_size - overlap_size))%Z in
                         py_slice text s (s + chunk_size)) <$> seq 0 k))
      /\ (len text <= start + Z.of_nat k * (chunk_size - overlap_size))%Z
      /\ (k = 0 \/ (start + (Z.of_nat k - 1) * (chunk_size - overlap_size) < len text)%Z).
Proof.
  intros Hstep fuel. induction fuel as [| fuel IH]; intros start acc Hfuel.
  - exists 0. simpl. destruct (Z.ltb_spec start (len text)) as [Hin | Hout]; [lia |].
    rewrite app_nil_r. split; [done | split; [lia | by left]].
  - simpl. destruct (Z.ltb_spec start (len text)) as [Hin | Hout].
    + destruct (IH (start + chunk_size - overlap_size)%Z
                   (acc ++ [py_slice text start (start + chunk_size)]))
        as (k & Hrun & Hstop & Hlast); [lia |].
      exists (S k). rewrite Hrun. split; [| split].
      * f_equal. rewrite <- app_assoc. f_equal.
        change (seq 0 (S k)) with (0 :: seq 1 k).
        rewrite <- fmap_S_seq, fmap_cons, <- list_fmap_compose. simpl.
        f_equal; [f_equal; lia |].
        apply list_fmap_ext. intros _ i _. simpl. f_equal; lia.
      * lia.
      * right. destruct Hlast as [-> | Hlast]; lia.
    + exists 0. simpl. rewrite app_nil_r. split; [done | split; [lia | by left]].
Qed.

(** With a valid configuration the call reads the file once and returns the
    windows of width [chunk_size] taken every [chunk_size - overlap_size]
    characters; [k] is the first multiple of the step at or past the end. *)
Lemma chunk_text_run (w : world) (file_path T : str) (C O : Z) :
  fs w file_path = inr T -> (0 <= O < C)%Z ->
  exists k : nat,
    chunk_text file_path C O w
    = (Return ((fun i => take (Z.to_nat C) (drop (i * Z.to_nat (C - O)) T)) <$> seq 0 k),
       log (EvRead file_path) w)
    /\ length T <= k * Z.to_nat (C - O)
    /\ (k = 0 \/ (k - 1) * Z.to_nat (C - O) < length T).
Proof.
  intros Hfs HO.
  unfold chunk_text.
  destruct (Z.geb_spec O C) as [Hge | _]; [lia |].
  unfold bind, open_read, run_loop. rewrite Hfs. simpl.
  destruct (chunk_loop_run T C O ltac:(lia) (length T) 0%Z []) as (k & Hrun & Hstop & Hlast).
  { unfold len. lia. }
  exists k. rewrite Hrun. simpl. unfold len in *.
  assert (Hstep : (C - O)%Z = Z.of_nat (Z.to_nat (C - O))) by lia.
  split; [| split].
  - do 2 f_equal. apply list_fmap_ext. intros _ i _. simpl.
    rewrite <- (py_slice_take_drop T (i * Z.to_nat (C - O)) (Z.to_nat C)).
    f_equal; lia.
  - rewrite Hstep in Hstop. lia.
  - destruct k as [| k]; [by left | right].
    destruct Hlast as [? | Hlast]; [done |].
    rewrite Hstep in Hlast. replace (S k - 1) with k by lia. nia.
Qed.

(** C1: for a text [T] (the contents of the file handed to [chunk_text]),
    [C > 0] and [0 <= O < C], the call returns chunks whose start positions
    ascend from the left in steps of exactly [C - O]; chunk [k] is the
    contiguous substring of [T] of width at most [C] at the [k]-th start;
    every character of [T] lies in some chunk; and the empty text gives no
    chunk at all. *)
Theorem chunk_text_chunk_sequence :
  forall (w : world) (file_path T : str) (C O : Z),
    fs w file_path = inr T -> (0 < C)%Z -> (0 <= O < C)%Z ->
    exists (chunks : list str) (starts : list nat),
      chunk_text file_path C O w = (Return chunks, log (EvRead file_path) w)
      /\ length starts = length chunks
      /\ (forall k s, starts !! k = Some s ->
            s < length T /\ chunks !! k = Some (take (Z.to_nat C) (drop s T)))
      /\ (forall c, c ∈ chunks -> (0 < len c <= C)%Z)
      /\ (forall k s s', starts !! k = Some s -> starts !! (S k) = Some s' ->
            (Z.of_nat s' - Z.of_nat s = C - O)%Z)
      /\ (forall j x, T !! j = Some x ->
            exists k s c, starts !! k = Some s /\ chunks !! k = Some c
                          /\ s <= j /\ c !! (j - s) = Some x)
      /\ (T = [] -> chunks = []).
Proof.
  intros w file_path T C O Hfs HC HO.
  destruct (chunk_text_run w file_path T C O Hfs HO) as (k & Hrun & Hstop & Hlast).
  set (step := Z.to_nat (C - O)) in *.
  assert (Hstep : 0 < step) by (subst step; lia).
  assert (Hin : forall i, i < k -> i * step < length T).
  { intros i Hi. destruct Hlast as [-> | Hlast]; [lia | nia]. }
  exists ((fun i => take (Z.to_nat C) (drop (i * step) T)) <$> seq 0 k),
         ((fun i => i * step) <$> seq 0 k).
  split; [exact Hrun |]. split; [by rewrite !length_fmap |].
  split; [| split; [| split; [| split]]].
  - intros i s Hs. apply list_lookup_fmap_Some in Hs as (i' & -> & Hi').
    apply lookup_seq in Hi' as [-> Hlt]. simpl in *. split; [by apply Hin |].
    rewrite list_lookup_fmap, lookup_seq_lt by done. done.
  - intros c Hc. apply list_elem_of_fmap in Hc as (i & -> & Hi).
    apply elem_of_seq in Hi. specialize (Hin i ltac:(lia)).
    unfold len. rewrite length_take, length_drop. lia.
  - intros i s s' Hs Hs'.
    apply list_lookup_fmap_Some in Hs as (a & -> & Ha).
    apply list_lookup_fmap_Some in Hs' as (b & -> & Hb).
    apply lookup_seq in Ha as [-> _]. apply lookup_seq in Hb as [-> _].
    subst step. simpl. nia.
  - intros j x Hj.
    assert (Hjlt : j < length T) by (by eapply lookup_lt_Some).
    set (i := j / step).
    assert (Hi : i * step <= j < i * step + step).
    { subst i. pose proof (Nat.div_mod_eq j step).
      pose proof (Nat.mod_upper_bound j step ltac:(lia)). nia. }
    assert (Hik : i < k) by nia.
    exists i, (i * step), (take (Z.to_nat C) (drop (i * step) T)).
    rewrite !list_lookup_fmap, !lookup_seq_lt by done. simpl.
    split; [done | split; [done | split; [lia |]]].
    rewrite lookup_take_lt by (subst step; lia).
    rewrite lookup_drop. rewrite <- Hj. f_equal. lia.
  - intros ->. simpl in *. destruct Hlast as [-> | Hlast]; [done | lia].
Qed.

Example chunk_text_abcdef :
  (chunk_text (py "t.txt") 4 1 (world_with_file (py "t.txt") (py "abcdef"))).1
  = Return [py "abcd"; py "def"].
Proof. vm_compute. reflexivity. Qed.

Example chunk_text_empty_file :
  (chunk_text (py "t.txt") 100 10 (world_with_file (py "t.txt") [])).1 = Return [].
Proof. vm_compute. reflexivity. Qed.

Lemma chunk_text_chunk_sequence_witness :
  let w := world_with_file (py "t.txt") (py "abcdef") in
  fs w (py "t.txt") = inr (py "abcdef") /\ (0 < 4)%Z /\ (0 <= 1 < 4)%Z
  /\ exists (chunks : list str) (starts : list nat),
      chunk_text (py "t.txt") 4 1 w = (Return chunks, log (EvRead (py "t.txt")) w)
      /\ length starts = length chunks
      /\ (forall k s, starts !! k = Some s ->
            s < length (py "abcdef")
            /\ chunks !! k = Some (take (Z.to_nat 4) (drop s (py "abcdef"))))
      /\ (forall c, c ∈ chunks -> (0 < len c <= 4)%Z)
      /\ (forall k s s', starts !! k = Some s -> starts !! (S k) = Some s' ->
            (Z.of_nat s' - Z.of_nat s = 4 - 1)%Z)
      /\ (forall j x, py "abcdef" !! j = Some x ->
            exists k s c, starts !! k = Some s /\ chunks !! k = Some c
                          /\ s <= j /\ c !! (j - s) = Some x)
      /\ (py "abcdef" = [] -> chunks = []).
Proof.
  intros w. split; [reflexivity |]. split; [lia |]. split; [lia |].
  apply (chunk_text_chunk_sequence w (py "t.txt") (py "abcdef") 4 1); [reflexivity | lia | lia].
Defined.

(** The windows after the first, each without its first [O] characters,
    extend the first window one step at a time. *)
Lemma windows_concat (T : str) (C O m : nat) :
  O < C ->
  take C T ++ concat ((fun i => drop O (take C (drop (i * (C - O)) T))) <$> seq 1 m)
  = take (m * (C - O) + C) T.
Proof.
  intros HO. induction m as [| m IH].
  - simpl. by rewrite app_nil_r.
  - rewrite seq_S, fmap_app, concat_app, app_assoc, IH. simpl.
    rewrite app_nil_r.
    assert (Hpiece : forall L : str, drop O (take C L) = take (C - O) (drop O L)).
    { intros L. rewrite take_drop_commute. do 2 f_equal. lia. }
    rewrite Hpiece, drop_drop.
    match goal with
    | |- context [drop ?n T] => replace n with (m * (C - O) + C) by lia
    end.
    rewrite take_take_drop. f_equal. lia.
Qed.

(** C10: for a non-empty text [T], [C > 0] and [0 <= O < C], the first chunk
    is the window of [T] at position 0, the last chunk runs up to the end of
    [T] (it is a suffix of [T]), and the first chunk followed by every later
    chunk without its first [O] characters is [T] again. *)
Theorem chunk_text_reconstruction :
  forall (w : world) (file_path T : str) (C O : Z),
    fs w file_path = inr T -> T <> [] -> (0 < C)%Z -> (0 <= O < C)%Z ->
    exists (first : str) (rest : list str) (final : str),
      chunk_text file_path C O w = (Return (first :: rest), log (EvRead file_path) w)
      /\ first = take (Z.to_nat C) T
      /\ last (first :: rest) = Some final
      /\ (exists before : str, T = before ++ final)
      /\ first ++ concat (drop (Z.to_nat O) <$> rest) = T.
Proof.
  intros w file_path T C O Hfs HT HC HO.
  destruct (chunk_text_run w file_path T C O Hfs HO) as (k & Hrun & Hstop & Hlast).
  assert (HCO : Z.to_nat (C - O) = Z.to_nat C - Z.to_nat O) by lia.
  rewrite HCO in *.
  set (c := Z.to_nat C) in *. set (o := Z.to_nat O) in *.
  assert (Hoc : o < c) by (subst o c; lia).
  destruct k as [| k].
  { destruct T; [done | simpl in Hstop; lia]. }
  destruct Hlast as [? | Hlast]; [done |].
  replace (S k - 1) with k in Hlast by lia.
  set (win := fun i => take c (drop (i * (c - o)) T)) in *.
  exists (take c T), (win <$> seq 1 k), (drop (k * (c - o)) T).
  split; [exact Hrun |]. split; [done |]. split; [| split].
  - change (take c T :: (win <$> seq 1 k)) with (win <$> seq 0 (S k)).
    rewrite seq_S, fmap_app. change (win <$> [0 + k]) with [win k].
    rewrite last_snoc. f_equal. subst win. simpl.
    apply take_ge. rewrite length_drop. lia.
  - exists (take (k * (c - o)) T). by rewrite take_drop.
  - rewrite <- list_fmap_compose.
    transitivity (take (k * (c - o) + c) T); [| apply take_ge; lia].
    rewrite <- (windows_concat T c o k Hoc). reflexivity.
Qed.

Lemma chunk_text_reconstruction_witness :
  let w := world_with_file (py "t.txt") (py "abcdef") in
  fs w (py "t.txt") = inr (py "abcdef") /\ py "abcdef" <> [] /\ (0 < 4)%Z /\ (0 <= 1 < 4)%Z
  /\ exists (first : str) (rest : list str) (final : str),
      chunk_text (py "t.txt") 4 1 w = (Return (first :: rest), log (EvRead (py "t.txt")) w)
      /\ first = take (Z.to_nat 4) (py "abcdef")
      /\ last (first :: rest) = Some final
      /\ (exists before : str, py "abcdef" = before ++ final)
      /\ first ++ concat (drop (Z.to_nat 1) <$> rest) = py "abcdef".
Proof.
  intros w. split; [reflexivity |]. split; [discriminate |]. split; [lia |]. split; [lia |].
  apply (chunk_text_reconstruction w (py "t.txt") (py "abcdef") 4 1);
    [reflexivity | discriminate | lia | lia].
Defined.

(** The call never leaves its loop running: once the guard has passed, the
    cursor advances by at least one character per iteration. *)
Lemma chunk_text_terminates (w : world) (file_path : str) (chunk_size overlap_size : Z) :
  (chunk_text file_path chunk_size overlap_size w).1 <> Diverge.
Proof.
  unfold chunk_text.
  destruct (Z.geb_spec overlap_size chunk_size) as [Hge | Hlt]; [done |].
  unfold bind, open_read, run_loop.
  destruct (fs w file_path) as [e | T]; simpl; [done |].
  destruct (chunk_loop_run T chunk_size overlap_size Hlt (length T) 0%Z [])
    as (k & -> & _); [unfold len; lia | done].
Qed.

(** C9 (as the code has it): [chunk_text] takes the path of a file, not the
    text, and reads it.  Its result is a function of the contents of that
    file, [chunk_size] and [overlap_size]: in two worlds where the file reads
    the same the results are equal, the call always ends, and all it does to
    the world is the one read (nothing is written). *)
Theorem chunk_text_function_of_file_contents :
  forall (w1 w2 : world) (file_path : str) (chunk_size overlap_size : Z),
    fs w1 file_path = fs w2 file_path ->
    (chunk_text file_path chunk_size overlap_size w1).1
    = (chunk_text file_path chunk_size overlap_size w2).1
    /\ (chunk_text file_path chunk_size overlap_size w1).1 <> Diverge
    /\ ((chunk_text file_path chunk_size overlap_size w1).2 = w1
        \/ (chunk_text file_path chunk_size overlap_size w1).2 = log (EvRead file_path) w1).
Proof.
  intros w1 w2 file_path chunk_size overlap_size Hsame.
  split; [| split; [apply chunk_text_terminates |]].
  - unfold chunk_text.
    destruct (overlap_size >=? chunk_size)%Z; [done |].
    unfold bind, open_read, run_loop. rewrite Hsame.
    by destruct (fs w2 file_path).
  - unfold chunk_text.
    destruct (overlap_size >=? chunk_size)%Z; [by left | right].
    unfold bind, open_read, run_loop.
    by destruct (fs w1 file_path).
Qed.

Lemma chunk_text_function_of_file_contents_witness :
  let w1 := world_with_file (py "t.txt") (py "abcdef") in
  let w2 := log (EvPrint (py "hello")) (world_with_file (py "t.txt") (py "abcdef")) in
  fs w1 (py "t.txt") = fs w2 (py "t.txt")
  /\ (chunk_text (py "t.txt") 4 1 w1).1 = (chunk_text (py "t.txt") 4 1 w2).1
  /\ (chunk_text (py "t.txt") 4 1 w1).1 <> Diverge
  /\ ((chunk_text (py "t.txt") 4 1 w1).2 = w1
      \/ (chunk_text (py "t.txt") 4 1 w1).2 = log (EvRead (py "t.txt")) w1).
Proof.
  intros w1 w2. split; [reflexivity |].
  apply (chunk_text_function_of_file_contents w1 w2 (py "t.txt") 4 1). reflexivity.
Defined.

(** C9 (as stated) fails: with the same three arguments the result differs
    between two file systems, and the call performs a file read. *)
Lemma chunk_text_reads_file_system :
  let w1 := world_with_file (py "t.txt") (py "abcdef") in
  let w2 := world_with_file (py "t.txt") (py "xyz") in
  (chunk_text (py "t.txt") 4 1 w1).1 = Return [py "abcd"; py "def"]
  /\ (chunk_text (py "t.txt") 4 1 w2).1 = Return [py "xyz"]
  /\ (chunk_text (py "t.txt") 4 1 w1).1 <> (chunk_text (py "t.txt") 4 1 w2).1
  /\ events (chunk_text (py "t.txt") 4 1 w1).2 = [EvRead (py "t.txt")].
Proof.
  intros w1 w2. vm_compute. repeat split; discriminate.
Qed.

(** ** Video identifiers *)

Example extract_watch_url :
  extract_video_id (py "https://www.youtube.com/watch?v=abc123&t=5s") = Return (py "abc123").
Proof. vm_compute. reflexivity. Qed.

Example extract_short_url :
  extract_video_id (py "https://youtu.be/abc123") = Return (py "abc123").
Proof. vm_compute. reflexivity. Qed.

Example extract_embed_then_v :
  extract_video_id (py "https://www.youtube.com/embed/XYZ?v=abc") = Return (py "XYZ").
Proof. vm_compute. reflexivity. Qed.

Example precedence_embed_then_v :
  first_by_precedence markers (py "https://www.youtube.com/embed/XYZ?v=abc") = Some (py "abc").
Proof. vm_compute. reflexivity. Qed.

(** *** The matcher *)

Lemma re_search_unfold (s : str) :
  re_search s
  = match match_pattern markers s with
    | Some g => Some g
    | None => match s with [] => None | _ :: s' => re_search s' end
    end.
Proof. by destruct s. Qed.

Lemma match_pattern_None (alts : list (list atom)) (s : str) :
  match_pattern alts s = None
  <-> forall k alt, alts !! k = Some alt -> match_with alt s = None.
Proof.
  induction alts as [| a alts IH]; simpl.
  - split; [intros _ k alt Hk; by destruct k | done].
  - destruct (match_with a s) as [g |] eqn:Ha.
    + split; [done |]. intros H. specialize (H 0 a eq_refl). congruence.
    + rewrite IH. split.
      * intros H [| k] alt Hk; simpl in Hk; [congruence | by eapply H].
      * intros H k alt Hk. by apply (H (S k)).
Qed.

Lemma match_pattern_Some (alts : list (list atom)) (s g : str) :
  match_pattern alts s = Some g
  <-> exists k alt,
        alts !! k = Some alt /\ match_with alt s = Some g
        /\ forall k' alt', k' < k -> alts !! k' = Some alt' -> match_with alt' s = None.
Proof.
  induction alts as [| a alts IH]; simpl.
  - split; [done | by intros (k & alt & Hk & _); destruct k].
  - destruct (match_with a s) as [g' |] eqn:Ha.
    + split.
      * intros [= ->]. exists 0, a. repeat split; [done |]. intros; lia.
      * intros ([| k] & alt & Hk & Hg & Hbefore); simpl in Hk.
        -- congruence.
        -- specialize (Hbefore 0 a ltac:(lia) eq_refl). congruence.
    + rewrite IH. split.
      * intros (k & alt & Hk & Hg & Hbefore). exists (S k), alt.
        repeat split; [done.. |].
        intros [| k'] alt' Hlt Hk'; simpl in Hk'; [congruence |].
        eapply Hbefore; [| done]. lia.
      * intros ([| k] & alt & Hk & Hg & Hbefore); simpl in Hk; [congruence |].
        exists k, alt. repeat split; [done.. |].
        intros k' alt' Hlt Hk'. apply (Hbefore (S k') alt'); [lia | done].
Qed.

Lemma re_search_None (s : str) :
  re_search s = None
  <-> forall p, p <= length s -> match_pattern markers (drop p s) = None.
Proof.
  induction s as [| c s IH]; rewrite re_search_unfold.
  - destruct (match_pattern markers []) eqn:Hm.
    + split; [done |]. intros H. specialize (H 0 ltac:(lia)).
      rewrite drop_0 in H. congruence.
    + split; [| done]. intros _ p Hp. by rewrite drop_nil.
  - destruct (match_pattern markers (c :: s)) eqn:Hm.
    + split; [done |]. intros H. specialize (H 0 ltac:(simpl; lia)).
      rewrite drop_0 in H. congruence.
    + rewrite IH. split.
      * intros H [| p] Hp; [by rewrite drop_0 |]. rewrite skipn_cons.
        apply H. simpl in Hp. lia.
      * intros H p Hp. apply (H (S p)). simpl. lia.
Qed.

Lemma re_search_Some (s g : str) :
  re_search s = Some g
  <-> exists p, p <= length s /\ match_pattern markers (drop p s) = Some g
                /\ forall p', p' < p -> match_pattern markers (drop p' s) = None.
Proof.
  induction s as [| c s IH]; rewrite re_search_unfold.
  - destruct (match_pattern markers []) eqn:Hm.
    + split.
      * intros [= ->]. exists 0. repeat split; [done.. |]. intros; lia.
      * intros (p & Hp & Hg & _). rewrite drop_nil in Hg. congruence.
    + split; [done |]. intros (p & Hp & Hg & _). rewrite drop_nil in Hg. congruence.
  - destruct (match_pattern markers (c :: s)) eqn:Hm.
    + split.
      * intros [= ->]. exists 0. rewrite drop_0.
        repeat split; [simpl; lia | done |]. intros; lia.
      * intros ([| p] & Hp & Hg & Hbefore).
        -- rewrite drop_0 in Hg. congruence.
        -- specialize (Hbefore 0 ltac:(lia)). rewrite drop_0 in Hbefore. congruence.
    + rewrite IH. split.
      * intros (p & Hp & Hg & Hbefore). exists (S p). rewrite skipn_cons.
        repeat split; [simpl; lia | done |].
        intros [| p'] Hlt; [by rewrite drop_0 |]. rewrite skipn_cons. apply Hbefore. lia.
      * intros ([| p] & Hp & Hg & Hbefore).
        -- rewrite drop_0 in Hg. congruence.
        -- rewrite skipn_cons in Hg. exists p.
           repeat split; [simpl in Hp; lia | done |].
           intros p' Hlt. specialize (Hbefore (S p') ltac:(lia)).
           by rewrite skipn_cons in Hbefore.
Qed.

Lemma id_char_true (c : N) : id_char c = true <-> c ∉ delimiters.
Proof.
  unfold id_char. rewrite negb_true_iff, bool_decide_eq_false. done.
Qed.

Lemma id_char_false (c : N) : id_char c = false <-> c ∈ delimiters.
Proof.
  unfold id_char. rewrite negb_false_iff, bool_decide_eq_true. done.
Qed.

Lemma id_chars_forallb (g : str) :
  forallb id_char g = true -> Forall (fun c => c ∉ delimiters) g.
Proof.
  induction g as [| c g IH]; simpl; [constructor |].
  intros [Hc Hg]%andb_prop. constructor; [by apply id_char_true | by apply IH].
Qed.

Lemma id_run_split (s : str) :
  exists after, s = id_run s ++ after
                /\ Forall (fun c => c ∉ delimiters) (id_run s)
                /\ ends_identifier after.
Proof.
  induction s as [| c s (after & Hs & Hall & Hend)]; simpl.
  - exists []. repeat split; [constructor | by left].
  - destruct (id_char c) eqn:Hc.
    + exists after. repeat split; [simpl; by rewrite <- Hs | | done].
      constructor; [by apply id_char_true | done].
    + exists (c :: s). repeat split; [constructor |].
      right. exists c, s. split; [done | by apply id_char_false].
Qed.

Lemma id_run_app (g after : str) :
  Forall (fun c => c ∉ delimiters) g -> ends_identifier after ->
  id_run (g ++ after) = g.
Proof.
  intros Hall Hend. induction Hall as [| c g Hc Hall IH]; simpl.
  - destruct Hend as [-> | (d & after' & -> & Hd)]; [done |].
    simpl. apply id_char_false in Hd. by rewrite Hd.
  - apply id_char_true in Hc. by rewrite Hc, IH.
Qed.

Lemma match_group_Some (s g : str) :
  match_group s = Some g
  <-> g <> [] /\ Forall (fun c => c ∉ delimiters) g
      /\ exists after, s = g ++ after /\ ends_identifier after.
Proof.
  unfold match_group. split.
  - destruct (id_run_split s) as (after & Hs & Hall & Hend).
    destruct (id_run s) as [| c r] eqn:Hrun; [done |].
    intros [= <-]. repeat split; [done | done |]. by exists after.
  - intros (Hne & Hall & after & -> & Hend).
    rewrite id_run_app by done. by destruct g.
Qed.

Lemma match_atoms_split (alt : list atom) (s rest : str) :
  match_atoms alt s = Some rest
  <-> exists m, s = m ++ rest /\ match_atoms alt m = Some [].
Proof.
  revert s. induction alt as [| a alt IH]; intros s; simpl.
  - split.
    + intros [= ->]. by exists [].
    + by intros (m & -> & [= ->]).
  - destruct s as [| c s].
    + split; [done |]. intros ([| c m] & Hs & Hm); simpl in *; done.
    + split.
      * destruct (atom_matches a c) eqn:Hac; [| done].
        intros (m & -> & Hm)%IH. exists (c :: m). simpl. by rewrite Hac.
      * intros ([| c' m] & Hs & Hm); simpl in *; [done |].
        injection Hs as <- ->. destruct (atom_matches a c); [| done].
        apply IH. by exists m.
Qed.

Lemma clash_exclusive (a b : list atom) (s : str) :
  clash a b = true -> is_Some (match_atoms a s) -> match_atoms b s = None.
Proof.
  revert b s. induction a as [| x a IH]; intros b s Hclash Ha.
  - by destruct b.
  - destruct b as [| y b]; [by destruct x |].
    destruct s as [| c s]; [done |]. simpl in Ha |- *.
    destruct (atom_matches x c) eqn:Hx; [| by destruct Ha].
    destruct (atom_matches y c) eqn:Hy; [| done].
    apply IH; [| done].
    destruct x as [x |], y as [y |]; simpl in *; try done.
    apply N.eqb_eq in Hx, Hy. subst. by rewrite N.eqb_refl in Hclash.
Qed.

(** No two alternatives of the pattern can match at the same place. *)
Lemma markers_clash (i j : nat) (a b : list atom) :
  markers !! i = Some a -> markers !! j = Some b -> i <> j -> clash a b = true.
Proof.
  intros Hi Hj Hne.
  do 16 (destruct i as [| i];
         [ do 16 (destruct j as [| j];
                  [ first [ done
                          | injection Hi as <-; injection Hj as <-; vm_compute; reflexivity ]
                  | ]);
           discriminate Hj
         | ]).
  discriminate Hi.
Qed.

Lemma markers_exclusive (s : str) (k k' : nat) (alt alt' : list atom) :
  markers !! k = Some alt -> markers !! k' = Some alt' ->
  is_Some (match_atoms alt s) -> is_Some (match_atoms alt' s) -> k = k'.
Proof.
  intros Hk Hk' Hm Hm'. destruct (decide (k = k')) as [| Hne]; [done |].
  rewrite (clash_exclusive alt alt' s) in Hm'; [by destruct Hm' | | done].
  by eapply markers_clash.
Qed.

Lemma matches_at_drop (k p : nat) (s : str) (alt : list atom) :
  p <= length s -> markers !! k = Some alt ->
  matches_at k p s = match_with alt (drop p s).
Proof.
  intros Hp Hk. unfold matches_at. rewrite decide_True by done. by rewrite Hk.
Qed.

(** [extract_video_id] returns what is captured at the leftmost position at
    which the pattern matches. *)
Lemma extract_video_id_Return (s g : str) :
  extract_video_id s = Return g
  <-> exists p k, matches_at k p s = Some g
                  /\ forall p' k', p' < p -> matches_at k' p' s = None.
Proof.
  unfold extract_video_id. split.
  - destruct (re_search s) as [g' |] eqn:Hsearch; [| done]. intros [= ->].
    apply re_search_Some in Hsearch as (p & Hp & Hg & Hbefore).
    apply match_pattern_Some in Hg as (k & alt & Hk & Hg & _).
    exists p, k. split; [by rewrite (matches_at_drop k p s alt) |].
    intros p' k' Hlt. specialize (Hbefore p' Hlt).
    unfold matches_at. rewrite decide_True by lia.
    destruct (markers !! k') as [alt' |] eqn:Hk'; [| done]. simpl.
    by eapply match_pattern_None in Hbefore.
  - intros (p & k & Hg & Hbefore).
    assert (Hp : p <= length s).
    { unfold matches_at in Hg. by destruct (decide (p <= length s)). }
    assert (Hk : exists alt, markers !! k = Some alt).
    { unfold matches_at in Hg. rewrite decide_True in Hg by done.
      destruct (markers !! k) as [alt |]; [by exists alt | done]. }
    destruct Hk as (alt & Hk). rewrite (matches_at_drop k p s alt) in Hg by done.
    assert (Hsearch : re_search s = Some g); [| by rewrite Hsearch].
    apply re_search_Some. exists p. split; [done |]. split.
    + apply match_pattern_Some. exists k, alt. repeat split; [done.. |].
      intros k' alt' Hlt Hk'.
      destruct (match_with alt' (drop p s)) as [g' |] eqn:Hg'; [| done].
      assert (k' = k); [| lia].
      apply (markers_exclusive (drop p s) k' k alt' alt); [done.. | |].
      * unfold match_with in Hg'. by destruct (match_atoms alt' (drop p s)).
      * unfold match_with in Hg. by destruct (match_atoms alt (drop p s)).
    + intros p' Hlt. apply match_pattern_None. intros k' alt' Hk'.
      rewrite <- (matches_at_drop k' p' s alt') by (done || lia). by apply Hbefore.
Qed.

(** C2 (as the code has it): the identifier returned is the one captured at
    the leftmost position of the input at which a marker with an identifier
    character behind it matches; the order of the alternatives decides
    nothing, as no two of them can match at the same position. *)
Theorem extract_video_id_leftmost_marker :
  (forall s g : str,
      extract_video_id s = Return g
      <-> exists p k, matches_at k p s = Some g
                      /\ forall p' k', p' < p -> matches_at k' p' s = None)
  /\ (forall (s : str) (k k' : nat) (alt alt' : list atom),
        markers !! k = Some alt -> markers !! k' = Some alt' ->
        is_Some (match_atoms alt s) -> is_Some (match_atoms alt' s) -> k = k').
Proof.
  split.
  - apply extract_video_id_Return.
  - apply markers_exclusive.
Qed.

(** C2 (as stated) fails: in a URL holding both [/embed/] and [v=], the
    marker first in the list of alternatives is [v=], and the identifier
    behind it is "abc"; the call returns "XYZ", the one behind the marker
    that comes first in the string. *)
Lemma extract_video_id_not_by_precedence :
  let url := py "https://www.youtube.com/embed/XYZ?v=abc" in
  marker_occurs 0 url /\ marker_occurs 7 url
  /\ first_by_precedence markers url = Some (py "abc")
  /\ extract_video_id url = Return (py "XYZ")
  /\ extract_video_id url <> Return (py "abc").
Proof.
  intros url. split; [| split; [| split; [| split]]].
  - exists (lits "v="), 34. split; [reflexivity |]. split; [vm_compute; lia |].
    vm_compute. by eexists.
  - exists (lits "/embed/"), 23. split; [reflexivity |]. split; [vm_compute; lia |].
    vm_compute. by eexists.
  - vm_compute. reflexivity.
  - vm_compute. reflexivity.
  - vm_compute. discriminate.
Qed.

Lemma matches_at_Some (k p : nat) (s g : str) :
  matches_at k p s = Some g
  <-> exists alt marker after,
        markers !! k = Some alt /\ match_atoms alt marker = Some []
        /\ p <= length s /\ drop p s = marker ++ g ++ after
        /\ g <> [] /\ Forall (fun c => c ∉ delimiters) g /\ ends_identifier after.
Proof.
  unfold matches_at. split.
  - destruct (decide (p <= length s)) as [Hp |]; [| done].
    destruct (markers !! k) as [alt |]; [| done]. simpl. unfold match_with.
    destruct (match_atoms alt (drop p s)) as [rest |] eqn:Hrest; [| done]. simpl.
    apply match_atoms_split in Hrest as (marker & Hdrop & Hmarker).
    intros (Hne & Hall & after & -> & Hend)%match_group_Some.
    by exists alt, marker, after.
  - intros (alt & marker & after & Hk & Hmarker & Hp & Hdrop & Hne & Hall & Hend).
    rewrite decide_True by done. rewrite Hk. simpl. unfold match_with.
    assert (Hrest : match_atoms alt (drop p s) = Some (g ++ after)).
    { apply match_atoms_split. by exists marker. }
    rewrite Hrest. simpl. apply match_group_Some. repeat split; [done.. |].
    by exists after.
Qed.

(** C8 (as the code has it): on the two URLs the spec quotes the call
    returns "abc123"; whatever it returns is the run of characters behind a
    matched marker up to, and without, the next [#], [&], [?], newline or
    [/] (or up to the end of the input); and the expected identifier is
    returned for the URLs made of a prefix in which the pattern does not
    match, a marker, an identifier free of those five characters and a
    remainder that is empty or starts with one of them.  Not every URL of a
    shape the spec lists is of that kind (see the lemma after the
    witness). *)
Theorem extract_video_id_supported_shapes :
  extract_video_id (py "https://www.youtube.com/watch?v=abc123&t=5s") = Return (py "abc123")
  /\ extract_video_id (py "https://youtu.be/abc123") = Return (py "abc123")
  /\ (forall s g : str,
        extract_video_id s = Return g ->
        exists (before marker after : str) (k : nat) (alt : list atom),
          s = before ++ marker ++ g ++ after
          /\ markers !! k = Some alt /\ match_atoms alt marker = Some []
          /\ g <> [] /\ Forall (fun c => c ∉ delimiters) g
          /\ ends_identifier after)
  /\ (forall (before marker g after : str) (k : nat) (alt : list atom),
        markers !! k = Some alt -> match_atoms alt marker = Some [] ->
        g <> [] -> Forall (fun c => c ∉ delimiters) g -> ends_identifier after ->
        (forall p k', p < length before ->
                      matches_at k' p (before ++ marker ++ g ++ after) = None) ->
        extract_video_id (before ++ marker ++ g ++ after) = Return g).
Proof.
  split; [vm_compute; reflexivity |]. split; [vm_compute; reflexivity |]. split.
  - intros s g (p & k & Hg & _)%extract_video_id_Return.
    apply matches_at_Some in Hg
      as (alt & marker & after & Hk & Hmarker & Hp & Hdrop & Hne & Hall & Hend).
    exists (take p s), marker, after, k, alt.
    split; [by rewrite <- Hdrop, take_drop | done].
  - intros before marker g after k alt Hk Hmarker Hne Hall Hend Hbefore.
    apply extract_video_id_Return. exists (length before), k.
    split; [| exact Hbefore].
    apply matches_at_Some. exists alt, marker, after.
    repeat split; [done | done | rewrite length_app; lia | | done | done | done].
    by rewrite drop_app_length.
Qed.

Lemma extract_video_id_supported_shapes_witness :
  let before := py "https://" in
  let marker := py "youtu.be/" in
  let g := py "dQw4w9WgXcQ" in
  let after := py "?t=42" in
  markers !! 2 = Some (lits "youtu" ++ [Dot] ++ lits "be/")
  /\ match_atoms (lits "youtu" ++ [Dot] ++ lits "be/") marker = Some []
  /\ extract_video_id (before ++ marker ++ g ++ after) = Return g.
Proof.
  intros before marker g after.
  split; [reflexivity |]. split; [reflexivity |].
  destruct extract_video_id_supported_shapes as (_ & _ & _ & Hshape).
  apply (Hshape before marker g after 2 (lits "youtu" ++ [Dot] ++ lits "be/")).
  - reflexivity.
  - reflexivity.
  - discriminate.
  - apply id_chars_forallb. reflexivity.
  - right. exists 63%N, (py "t=42"). split; [reflexivity |].
    apply id_char_false. reflexivity.
  - intros p k' Hp.
    do 8 (destruct p as [| p];
          [ do 16 (destruct k' as [| k']; [vm_compute; reflexivity |]);
            vm_compute; reflexivity
          | ]).
    vm_compute in Hp. lia.
Defined.

(** C8 (as stated) fails: of the shapes the spec counts as supported, a
    watch URL with a further parameter that ends in [v] before [v=] yields
    the value of that parameter; a URL-encoded watch URL is refused, as its
    [v%3D] is no marker; and for a URL-encoded short link the identifier
    runs on through the encoded [?], which is no delimiter. *)
Lemma extract_video_id_unsupported_variants :
  extract_video_id (py "https://www.youtube.com/watch?rev=2&v=abc123") = Return (py "2")
  /\ extract_video_id (py "https%3A%2F%2Fwww.youtube.com%2Fwatch%3Fv%3Dabc123")
     = Raise (Exn ValueError (py "Could not extract video ID from URL."))
  /\ extract_video_id (py "https%3A%2F%2Fyoutu.be%2Fabc123%3Ft%3D5")
     = Return (py "abc123%3Ft%3D5")
  /\ extract_video_id (py "https://www.youtube.com/watch?rev=2&v=abc123")
     <> Return (py "abc123").
Proof.
  split; [vm_compute; reflexivity |]. split; [vm_compute; reflexivity |].
  split; [vm_compute; reflexivity | vm_compute; discriminate].
Qed.

(** C6: an input in which no marker occurs makes the call raise the
    invalid-URL error ([ValueError], "Could not extract video ID from URL.");
    an identifier that is returned has one character at least; and nothing
    else is asked of it: every non-empty run free of the five delimiters is
    returned for some input. *)
Theorem extract_video_id_invalid_url :
  (forall s : str,
      (forall k, ~ marker_occurs k s) ->
      extract_video_id s
      = Raise (Exn ValueError (py "Could not extract video ID from URL.")))
  /\ (forall s g : str, extract_video_id s = Return g -> 1 <= length g)
  /\ (forall g : str,
        g <> [] -> Forall (fun c => c ∉ delimiters) g ->
        extract_video_id (py "v=" ++ g) = Return g).
Proof.
  split; [| split].
  - intros s Hnone. unfold extract_video_id.
    assert (Hsearch : re_search s = None); [| by rewrite Hsearch].
    apply re_search_None. intros p Hp.
    apply match_pattern_None. intros k alt Hk. unfold match_with.
    destruct (match_atoms alt (drop p s)) as [rest |] eqn:Hrest; [| done].
    destruct (Hnone k). exists alt, p. by rewrite Hrest.
  - intros s g (p & k & Hg & _)%extract_video_id_Return.
    apply matches_at_Some in Hg as (_ & _ & _ & _ & _ & _ & _ & Hne & _).
    destruct g; [done | simpl; lia].
  - intros g Hne Hall. apply extract_video_id_Return. exists 0, 0.
    split; [| intros; lia].
    apply matches_at_Some. exists (lits "v="), (py "v="), [].
    repeat split; [lia | by rewrite app_nil_r | done | done | by left].
Qed.

Lemma extract_video_id_invalid_url_witness :
  (forall k, ~ marker_occurs k (py "hello"))
  /\ extract_video_id (py "hello")
     = Raise (Exn ValueError (py "Could not extract video ID from URL.")).
Proof.
  assert (Hnone : forall k, ~ marker_occurs k (py "hello")).
  { intros k (alt & p & Hk & Hp & Hm).
    do 16 (destruct k as [| k];
           [ injection Hk as <-;
             do 6 (destruct p as [| p]; [vm_compute in Hm; by destruct Hm |]);
             vm_compute in Hp; lia
           | ]).
    discriminate Hk. }
  split; [exact Hnone |].
  destruct extract_video_id_invalid_url as (Hraise & _).
  exact (Hraise (py "hello") Hnone).
Defined.

(** ** Transcripts *)

Lemma rstrip_snoc_space (s : str) : rstrip (s ++ py " ") = rstrip s.
Proof.
  induction s as [| c s IH]; [reflexivity |].
  simpl. change (s ++ [32%N]) with (s ++ py " "). by rewrite IH.
Qed.

Lemma lstrip_snoc_space (s : str) :
  lstrip (s ++ py " ") = match lstrip s with [] => [] | r => r ++ py " " end.
Proof.
  induction s as [| c s IH]; [reflexivity |].
  simpl. destruct (is_whitespace c); [exact IH | reflexivity].
Qed.

(** A trailing space does not survive [strip]. *)
Lemma strip_snoc_space (s : str) : strip (s ++ py " ") = strip s.
Proof.
  unfold strip. rewrite lstrip_snoc_space.
  destruct (lstrip s) as [| c r]; [reflexivity |].
  apply rstrip_snoc_space.
Qed.

(** Appending a space to every piece is joining with spaces, plus one
    space at the end. *)
Lemma concat_spaces_join (texts : list str) :
  texts <> [] ->
  concat ((fun t => t ++ py " ") <$> texts) = join (py " ") texts ++ py " ".
Proof.
  induction texts as [| t texts IH]; [done |]. intros _.
  destruct texts as [| t' texts].
  - simpl. by rewrite app_nil_r.
  - rewrite fmap_cons. change (concat ((t ++ py " ") :: ?l)) with ((t ++ py " ") ++ concat l).
    rewrite IH by done.
    change (join (py " ") (t :: t' :: texts)) with (t ++ py " " ++ join (py " ") (t' :: texts)).
    by rewrite <- !app_assoc.
Qed.

Lemma strip_concat_spaces (texts : list str) :
  strip (concat ((fun t => t ++ py " ") <$> texts)) = strip (join (py " ") texts).
Proof.
  destruct texts as [| t texts]; [reflexivity |].
  rewrite concat_spaces_join by done. apply strip_snoc_space.
Qed.

Lemma combine_entries_texts (data : list (gmap str pyval)) (texts : list str) :
  Forall2 (fun entry t => entry !! py "text" = Some (PStr t)) data texts ->
  forall (acc : str) (w : world),
    combine_entries data acc w
    = (Return (acc ++ concat ((fun t => t ++ py " ") <$> texts)), w).
Proof.
  induction 1 as [| entry t data texts Hentry _ IH]; intros acc w.
  - simpl. by rewrite app_nil_r.
  - simpl. unfold bind, lift, dict_getitem. rewrite Hentry. simpl.
    rewrite IH. by rewrite <- !app_assoc.
Qed.

Lemma lstrip_head (s : str) (c : N) (r : str) :
  lstrip s = c :: r -> is_whitespace c = false.
Proof.
  induction s as [| x s IH]; simpl; [done |].
  destruct (is_whitespace x) eqn:Hx; [exact IH |]. by intros [= <- _].
Qed.

Lemma rstrip_last (s : str) (c : N) :
  last (rstrip s) = Some c -> is_whitespace c = false.
Proof.
  induction s as [| x s IH]; simpl; [done |].
  destruct (rstrip s) as [| y r].
  - destruct (is_whitespace x) eqn:Hx; simpl; [done |]. by intros [= <-].
  - exact IH.
Qed.

Lemma rstrip_head (s : str) : rstrip s = [] \/ head (rstrip s) = head s.
Proof.
  destruct s as [| x s]; simpl; [by left |].
  destruct (rstrip s); [| by right].
  destruct (is_whitespace x); [by left | by right].
Qed.

(** [strip] leaves no whitespace at either end. *)
Lemma strip_ends (s : str) :
  (forall c, head (strip s) = Some c -> is_whitespace c = false)
  /\ (forall c, last (strip s) = Some c -> is_whitespace c = false).
Proof.
  unfold strip. split.
  - intros c Hc. destruct (rstrip_head (lstrip s)) as [Hnil | Hhead].
    + by rewrite Hnil in Hc.
    + rewrite Hhead in Hc. destruct (lstrip s) as [| x r] eqn:Hs; [done |].
      injection Hc as ->. by eapply lstrip_head.
  - intros c. apply rstrip_last.
Qed.







(** C3 (as the code has it): when the transcript service raises (any
    exception derived from [Exception]: no transcript, language unavailable,
    network error, rate limiting) and standard output takes the line
    "Error: " followed by the text of the exception, the call does not
    raise: it returns [None], having printed that line. *)
Theorem get_transcript_service_failure :
  forall (w : world) (video_id : str) (output_file : option str) (language : str) (e : exn),
    transcript_service w video_id [language] = inl e ->
    is_Exception e = true ->
    print_error w (py "Error: " ++ exn_str e) = None ->
    get_transcript video_id output_file language w
    = (Return None,
       log (EvPrint (py "Error: " ++ exn_str e)) (log (EvTranscript video_id [language]) w)).
Proof.
  intros w video_id output_file language e Hservice Hclass Hline.
  unfold get_transcript, try_except, bind, fetch_raw_data.
  rewrite Hservice. simpl. rewrite Hclass.
  by rewrite print_taken.
Qed.

Lemma get_transcript_service_failure_witness :
  let w := world_with_transcript (inl no_transcript) in
  transcript_service w (py "abc123") [py "en"] = inl no_transcript
  /\ is_Exception no_transcript = true
  /\ print_error w (py "Error: " ++ exn_str no_transcript) = None
  /\ get_transcript (py "abc123") None (py "en") w
     = (Return None,
        log (EvPrint (py "Error: " ++ exn_str no_transcript))
            (log (EvTranscript (py "abc123") [py "en"]) w)).
Proof.
  intros w. split; [reflexivity |]. split; [reflexivity |]. split; [reflexivity |].
  apply (get_transcript_service_failure w (py "abc123") None (py "en") no_transcript);
    reflexivity.
Defined.

(** C3 (as stated) fails: the [print] of the handler is not guarded.  When
    the service fails with a text that standard output cannot encode (here
    an accented letter on an ASCII stream), the [UnicodeEncodeError] of
    [print] leaves the call, nothing is printed, and no [None] comes
    back. *)
Lemma get_transcript_unprintable_failure :
  let w := with_stdout ascii_stdout (world_with_transcript (inl no_transcript_fr)) in
  transcript_service w (py "abc123") [py "en"] = inl no_transcript_fr
  /\ is_Exception no_transcript_fr = true
  /\ get_transcript (py "abc123") None (py "en") w
     = (Raise (Exn UnicodeEncodeError
                   (py "'ascii' codec can't encode character '\xe9' in position 33: ordinal not in range(128)")),
        log (EvTranscript (py "abc123") [py "en"]) w)
  /\ (get_transcript (py "abc123") None (py "en") w).1 <> Return None.
Proof.
  intros w. split; [reflexivity |]. split; [reflexivity |].
  split; [vm_compute; reflexivity | vm_compute; discriminate].
Qed.

(** ** Video metadata *)

Example snippet_url_sample : snippet_url sample_client (py "abc123") = Return sample_url.
Proof. vm_compute. reflexivity. Qed.

(** [raise_for_status] raises exactly for the statuses 400 to 599, and the
    error then carries the status code, also at the head of its text. *)
Lemma raise_for_status_error (resp : response) (w : world) :
  (400 <= status_code resp < 600)%Z ->
  exists detail : str,
    raise_for_status resp w
    = (Raise (Exn (HTTPError (status_code resp)) (py (pretty (status_code resp)) ++ detail)), w).
Proof.
  intros Hcode. unfold raise_for_status.
  destruct (Z.leb_spec 400 (status_code resp)) as [_ |]; [| lia].
  destruct (Z.ltb_spec (status_code resp) 500) as [_ | Hge]; simpl.
  - by eexists.
  - destruct (Z.leb_spec 500 (status_code resp)) as [_ |]; [| lia].
    destruct (Z.ltb_spec (status_code resp) 600) as [_ |]; [| lia]. simpl.
    by eexists.
Qed.

Lemma raise_for_status_ok (resp : response) (w : world) :
  ~ (400 <= status_code resp < 600)%Z ->
  raise_for_status resp w = (Return tt, w).
Proof.
  intros Hcode. unfold raise_for_status.
  destruct (Z.leb_spec 400 (status_code resp)) as [Hlo |]; simpl.
  - destruct (Z.ltb_spec (status_code resp) 500) as [| Hge]; [lia |].
    destruct (Z.leb_spec 500 (status_code resp)) as [_ |]; [| lia].
    by destruct (Z.ltb_spec (status_code resp) 600) as [|]; [lia |].
  - destruct (Z.leb_spec 500 (status_code resp)) as [|]; [lia | done].
Qed.

(** C7 (as the code has it): once the request has been answered, the call
    raises [HTTPError], carrying the status, when the status is a client or
    server error (400 to 599); for any other status (every 2xx among them)
    it raises the not-found error ([ValueError], "Video snippet not found.")
    when the JSON object has no [items] or an empty list of them, and
    returns the [snippet] of the first item when there is one; the API key
    plays no part in this. *)
Theorem fetch_video_snippet_outcomes :
  forall (w : world) (self : YouTubeClient) (video_id url : str) (resp : response),
    snippet_url self video_id = Return url ->
    http w url = inr resp ->
    let result := (fetch_video_snippet self video_id w).1 in
    ((400 <= status_code resp < 600)%Z ->
     exists detail : str,
       result = Raise (Exn (HTTPError (status_code resp))
                           (py (pretty (status_code resp)) ++ detail)))
    /\ (~ (400 <= status_code resp < 600)%Z ->
        forall d : gmap str pyval,
          resp_json resp = inr (PDict d) ->
          d !! py "items" = None \/ d !! py "items" = Some (PList []) ->
          result = Raise (Exn ValueError (py "Video snippet not found.")))
    /\ (~ (400 <= status_code resp < 600)%Z ->
        forall (d item : gmap str pyval) (others : list pyval) (snippet : pyval),
          resp_json resp = inr (PDict d) ->
          d !! py "items" = Some (PList (PDict item :: others)) ->
          item !! py "snippet" = Some snippet ->
          result = Return snippet).
Proof.
  intros w self video_id url resp Hurl Hhttp result. subst result.
  unfold fetch_video_snippet, bind, lift, requests_get.
  rewrite Hurl, Hhttp. simpl.
  split; [| split].
  - intros Hcode.
    destruct (raise_for_status_error resp (log (EvGet url) w) Hcode) as (detail & ->).
    by exists detail.
  - intros Hcode d Hjson Hitems.
    rewrite (raise_for_status_ok resp _ Hcode), Hjson. simpl.
    by destruct Hitems as [-> | ->].
  - intros Hcode d item others snippet Hjson Hitems Hsnippet.
    rewrite (raise_for_status_ok resp _ Hcode), Hjson. simpl.
    unfold dict_getitem at 1. rewrite Hitems. simpl.
    unfold dict_getitem. by rewrite Hsnippet.
Qed.

Lemma fetch_video_snippet_outcomes_witness :
  let resp := Response 200 (py "OK") sample_url (inr no_items) in
  let w := world_with_response resp in
  snippet_url sample_client (py "abc123") = Return sample_url
  /\ http w sample_url = inr resp
  /\ (fetch_video_snippet sample_client (py "abc123") w).1
     = Raise (Exn ValueError (py "Video snippet not found.")).
Proof.
  intros resp w. split; [vm_compute; reflexivity |]. split; [reflexivity |].
  destruct (fetch_video_snippet_outcomes w sample_client (py "abc123") sample_url resp)
    as (_ & Hempty & _); [vm_compute; reflexivity | reflexivity |].
  apply (Hempty ltac:(simpl; lia) (<[py "items" := PList []]> ∅)); [reflexivity |].
  right. reflexivity.
Defined.

(** C7 (as stated) fails: a response with status 304 is not a success (it is
    no 2xx), yet no [HTTPError] is raised for it; the call goes on to read
    the body. *)
Lemma fetch_video_snippet_not_modified :
  let w := world_with_response not_modified in
  http w sample_url = inr not_modified
  /\ ~ (200 <= status_code not_modified < 300)%Z
  /\ (fetch_video_snippet sample_client (py "abc123") w).1 = Raise json_error
  /\ forall code : Z, exn_class json_error <> HTTPError code.
Proof.
  intros w. split; [reflexivity |]. split; [simpl; lia |].
  split; [vm_compute; reflexivity | done].
Qed.

(** * Further properties *)

(** ** More on chunking *)

(** The result of [chunk_text] for every configuration that passes the
    guard with a non-negative [chunk_size]: the overlap may be negative. *)
Lemma chunk_text_windows (w : world) (file_path T : str) (C O : Z) :
  fs w file_path = inr T -> (0 <= C)%Z -> (O < C)%Z ->
  exists k : nat,
    chunk_text file_path C O w
    = (Return ((fun i => take (Z.to_nat C) (drop (i * Z.to_nat (C - O)) T)) <$> seq 0 k),
       log (EvRead file_path) w)
    /\ length T <= k * Z.to_nat (C - O)
    /\ (k = 0 \/ (k - 1) * Z.to_nat (C - O) < length T).
Proof.
  intros Hfs HC HO.
  unfold chunk_text.
  destruct (Z.geb_spec O C) as [Hge | _]; [lia |].
  unfold bind, open_read, run_loop. rewrite Hfs. simpl.
  destruct (chunk_loop_run T C O HO (length T) 0%Z []) as (k & Hrun & Hstop & Hlast).
  { unfold len. lia. }
  exists k. rewrite Hrun. simpl. unfold len in *.
  assert (Hstep : (C - O)%Z = Z.of_nat (Z.to_nat (C - O))) by lia.
  split; [| split].
  - do 2 f_equal. apply list_fmap_ext. intros _ i _. simpl.
    rewrite <- (py_slice_take_drop T (i * Z.to_nat (C - O)) (Z.to_nat C)).
    f_equal; lia.
  - rewrite Hstep in Hstop. lia.
  - destruct k as [| k]; [by left | right].
    destruct Hlast as [? | Hlast]; [done |].
    rewrite Hstep in Hlast. replace (S k - 1) with k by lia. nia.
Qed.

(** The number of windows is the length of the text divided by the step,
    rounded up. *)
Lemma window_count (n step k : nat) :
  0 < step -> n <= k * step -> (k = 0 \/ (k - 1) * step < n) ->
  k = (n + step - 1) / step.
Proof.
  intros Hstep Hstop Hlast.
  pose proof (Nat.div_mod_eq (n + step - 1) step) as Hdiv.
  pose proof (Nat.mod_upper_bound (n + step - 1) step ltac:(lia)) as Hmod.
  set (q := (n + step - 1) / step) in *.
  destruct Hlast as [-> | Hlast].
  - assert (n = 0) by lia. subst n. nia.
  - destruct k as [| k]; [nia |]. replace (S k - 1) with k in Hlast by lia. nia.
Qed.

(** X2: for every configuration with [0 <= chunk_size] and
    [overlap_size < chunk_size] (a negative overlap included), the call
    returns ceil(len(T) / (chunk_size - overlap_size)) chunks, and chunk [k]
    is [T[k*step : k*step + chunk_size]], of length
    min(chunk_size, len(T) - k*step). *)
Theorem chunk_text_count_and_lengths :
  forall (w : world) (file_path T : str) (C O : Z),
    fs w file_path = inr T -> (0 <= C)%Z -> (O < C)%Z ->
    let step := Z.to_nat (C - O) in
    exists chunks : list str,
      chunk_text file_path C O w = (Return chunks, log (EvRead file_path) w)
      /\ length chunks = (length T + step - 1) / step
      /\ forall k c, chunks !! k = Some c ->
            c = take (Z.to_nat C) (drop (k * step) T)
            /\ length c = Z.to_nat C `min` (length T - k * step).
Proof.
  intros w file_path T C O Hfs HC HO step.
  destruct (chunk_text_windows w file_path T C O Hfs HC HO) as (k & Hrun & Hstop & Hlast).
  fold step in Hrun, Hstop, Hlast.
  eexists. split; [exact Hrun |]. split.
  - rewrite length_fmap, length_seq.
    apply window_count; [subst step; lia | done | done].
  - intros i c Hc. apply list_lookup_fmap_Some in Hc as (i' & -> & Hi').
    apply lookup_seq in Hi' as [-> _]. simpl. split; [done |].
    by rewrite length_take, length_drop.
Qed.

Lemma chunk_text_count_and_lengths_witness :
  let w := world_with_file (py "t.txt") (py "abcdefghij") in
  fs w (py "t.txt") = inr (py "abcdefghij") /\ (0 <= 3)%Z /\ (-2 < 3)%Z
  /\ exists chunks : list str,
      chunk_text (py "t.txt") 3 (-2) w = (Return chunks, log (EvRead (py "t.txt")) w)
      /\ length chunks = (length (py "abcdefghij") + Z.to_nat (3 - -2) - 1) / Z.to_nat (3 - -2)
      /\ forall k c, chunks !! k = Some c ->
            c = take (Z.to_nat 3) (drop (k * Z.to_nat (3 - -2)) (py "abcdefghij"))
            /\ length c = Z.to_nat 3 `min` (length (py "abcdefghij") - k * Z.to_nat (3 - -2)).
Proof.
  intros w. split; [reflexivity |]. split; [lia |]. split; [lia |].
  apply (chunk_text_count_and_lengths w (py "t.txt") (py "abcdefghij") 3 (-2));
    [reflexivity | lia | lia].
Defined.

(** X3: with [0 <= overlap_size < chunk_size], what a chunk holds past the
    step is what the next chunk starts with: consecutive chunks share the
    characters of the overlap, exactly [overlap_size] of them when the
    earlier chunk has its full length. *)
Theorem chunk_text_consecutive_overlap :
  forall (w : world) (file_path T : str) (C O : Z),
    fs w file_path = inr T -> (0 <= O < C)%Z ->
    exists chunks : list str,
      chunk_text file_path C O w = (Return chunks, log (EvRead file_path) w)
      /\ forall k c c', chunks !! k = Some c -> chunks !! (S k) = Some c' ->
           drop (Z.to_nat (C - O)) c = take (Z.to_nat O) c'
           /\ (length c = Z.to_nat C -> length (take (Z.to_nat O) c') = Z.to_nat O).
Proof.
  intros w file_path T C O Hfs HO.
  destruct (chunk_text_windows w file_path T C O Hfs ltac:(lia) ltac:(lia))
    as (k & Hrun & _ & _).
  eexists. split; [exact Hrun |].
  intros i c c' Hc Hc'.
  apply list_lookup_fmap_Some in Hc as (a & -> & Ha).
  apply list_lookup_fmap_Some in Hc' as (b & -> & Hb).
  apply lookup_seq in Ha as [-> _]. apply lookup_seq in Hb as [-> _]. simpl.
  set (step := Z.to_nat (C - O)). set (c := Z.to_nat C). set (o := Z.to_nat O).
  assert (Hco : c = step + o) by (subst c step o; lia).
  assert (Hshared : drop step (take c (drop (i * step) T)) = take o (drop (step + i * step) T)).
  { rewrite Hco, <- take_drop_commute, drop_drop. do 2 f_equal. lia. }
  split.
  - rewrite Hshared, take_take. f_equal. lia.
  - intros Hfull. rewrite take_take, Nat.min_l by lia.
    rewrite <- Hshared, length_drop, Hfull. lia.
Qed.

Lemma chunk_text_consecutive_overlap_witness :
  let w := world_with_file (py "t.txt") (py "abcdef") in
  fs w (py "t.txt") = inr (py "abcdef") /\ (0 <= 1 < 4)%Z
  /\ exists chunks : list str,
      chunk_text (py "t.txt") 4 1 w = (Return chunks, log (EvRead (py "t.txt")) w)
      /\ forall k c c', chunks !! k = Some c -> chunks !! (S k) = Some c' ->
           drop (Z.to_nat (4 - 1)) c = take (Z.to_nat 1) c'
           /\ (length c = Z.to_nat 4 -> length (take (Z.to_nat 1) c') = Z.to_nat 1).
Proof.
  intros w. split; [reflexivity |]. split; [lia |].
  apply (chunk_text_consecutive_overlap w (py "t.txt") (py "abcdef") 4 1); [reflexivity | lia].
Defined.

(** X4: for [0 < chunk_size] and any [overlap_size < chunk_size], position
    [j] of the text lies in a chunk exactly when [j mod step < chunk_size],
    where [step = chunk_size - overlap_size].  A negative overlap is
    accepted by the guard and leaves the characters between two chunks out:
    position [chunk_size] of a longer text is in no chunk. *)
Theorem chunk_text_coverage_criterion :
  forall (w : world) (file_path T : str) (C O : Z),
    fs w file_path = inr T -> (0 < C)%Z -> (O < C)%Z ->
    let step := Z.to_nat (C - O) in
    exists chunks : list str,
      chunk_text file_path C O w = (Return chunks, log (EvRead file_path) w)
      /\ (forall j, j < length T ->
            (exists k c, chunks !! k = Some c /\ k * step <= j < k * step + length c)
            <-> j mod step < Z.to_nat C)
      /\ ((O < 0)%Z -> Z.to_nat C < length T ->
          ~ exists k c, chunks !! k = Some c
                        /\ k * step <= Z.to_nat C < k * step + length c).
Proof.
  intros w file_path T C O Hfs HC HO step.
  destruct (chunk_text_windows w file_path T C O Hfs ltac:(lia) HO) as (k & Hrun & Hstop & Hlast).
  fold step in Hrun, Hstop, Hlast.
  assert (Hstep : 0 < step) by (subst step; lia).
  set (c := Z.to_nat C) in *.
  assert (Hc : 0 < c) by (subst c; lia).
  assert (Hcovered : forall j, j < length T ->
            (exists i x, ((fun i => take c (drop (i * step) T)) <$> seq 0 k) !! i = Some x
                         /\ i * step <= j < i * step + length x)
            <-> j mod step < c).
  { intros j Hj.
    pose proof (Nat.div_mod_eq j step) as Hdiv.
    pose proof (Nat.mod_upper_bound j step ltac:(lia)) as Hmod.
    split.
    - intros (i & x & Hx & Hlo & Hhi).
      apply list_lookup_fmap_Some in Hx as (i' & -> & Hi').
      apply lookup_seq in Hi' as [-> _]. simpl in *.
      rewrite length_take, length_drop in Hhi.
      assert (i <= j / step) by (apply Nat.div_le_lower_bound; lia).
      nia.
    - intros Hin.
      assert (Hik : j / step < k) by nia.
      exists (j / step), (take c (drop (j / step * step) T)).
      rewrite list_lookup_fmap, lookup_seq_lt by done. simpl.
      split; [done |]. rewrite length_take, length_drop. lia. }
  eexists. split; [exact Hrun |]. split; [exact Hcovered |].
  intros Hneg Hlong Hin.
  apply (Hcovered c Hlong) in Hin.
  rewrite Nat.mod_small in Hin by (subst step c; lia). lia.
Qed.

Lemma chunk_text_coverage_criterion_witness :
  let w := world_with_file (py "t.txt") (py "abcdefghij") in
  fs w (py "t.txt") = inr (py "abcdefghij") /\ (0 < 3)%Z /\ (-2 < 3)%Z
  /\ exists chunks : list str,
      chunk_text (py "t.txt") 3 (-2) w = (Return chunks, log (EvRead (py "t.txt")) w)
      /\ (forall j, j < length (py "abcdefghij") ->
            (exists k c, chunks !! k = Some c
                         /\ k * Z.to_nat (3 - -2) <= j < k * Z.to_nat (3 - -2) + length c)
            <-> j mod Z.to_nat (3 - -2) < Z.to_nat 3)
      /\ ((-2 < 0)%Z -> Z.to_nat 3 < length (py "abcdefghij") ->
          ~ exists k c, chunks !! k = Some c
                        /\ k * Z.to_nat (3 - -2) <= Z.to_nat 3 < k * Z.to_nat (3 - -2) + length c).
Proof.
  intros w. split; [reflexivity |]. split; [lia |]. split; [lia |].
  apply (chunk_text_coverage_criterion w (py "t.txt") (py "abcdefghij") 3 (-2));
    [reflexivity | lia | lia].
Defined.


(** ** More on video identifiers *)

(** X5: the call raises its [ValueError] exactly when no marker of the
    pattern is followed by an identifier character anywhere in the input;
    that a marker occurs is not enough: a short link that ends behind the
    marker, or a watch URL whose [v=] is followed by [&], is refused. *)
Theorem extract_video_id_refused_iff :
  (forall s : str,
      extract_video_id s
      = Raise (Exn ValueError (py "Could not extract video ID from URL."))
      <-> forall p k, matches_at k p s = None)
  /\ (forall s : str,
        (exists (k p : nat) (alt : list atom) (after : str),
            markers !! k = Some alt /\ p <= length s
            /\ match_atoms alt (drop p s) = Some after /\ after <> []
            /\ Forall (fun c => c ∉ delimiters) (take 1 after)) ->
        exists g, extract_video_id s = Return g)
  /\ extract_video_id (py "https://youtu.be/")
     = Raise (Exn ValueError (py "Could not extract video ID from URL."))
  /\ extract_video_id (py "https://www.youtube.com/watch?v=&t=5s")
     = Raise (Exn ValueError (py "Could not extract video ID from URL.")).
Proof.
  assert (Hiff : forall s : str,
      extract_video_id s
      = Raise (Exn ValueError (py "Could not extract video ID from URL."))
      <-> forall p k, matches_at k p s = None).
  { intros s. unfold extract_video_id. split.
    - destruct (re_search s) as [g |] eqn:Hsearch; [done |]. intros _ p k.
      unfold matches_at. destruct (decide (p <= length s)) as [Hp |]; [| done].
      destruct (markers !! k) as [alt |] eqn:Hk; [| done]. simpl.
      eapply re_search_None in Hsearch; [| exact Hp].
      by eapply match_pattern_None in Hsearch.
    - intros Hnone.
      assert (Hsearch : re_search s = None); [| by rewrite Hsearch].
      apply re_search_None. intros p Hp. apply match_pattern_None. intros k alt Hk.
      rewrite <- (matches_at_drop k p s alt) by done. apply Hnone. }
  split; [exact Hiff |]. split; [| split; vm_compute; reflexivity].
  intros s (k & p & alt & after & Hk & Hp & Hmatch & Hne & Hid).
  destruct (extract_video_id s) as [g | e |] eqn:Hresult.
  - by exists g.
  - exfalso.
    assert (Hraise : extract_video_id s
                     = Raise (Exn ValueError (py "Could not extract video ID from URL."))).
    { unfold extract_video_id in *. by destruct (re_search s). }
    pose proof (proj1 (Hiff s) Hraise p k) as Hnone.
    rewrite (matches_at_drop k p s alt) in Hnone by done.
    unfold match_with in Hnone. rewrite Hmatch in Hnone. simpl in Hnone.
    unfold match_group in Hnone.
    destruct after as [| c after]; [done |]. simpl in Hid, Hnone.
    apply Forall_cons in Hid as [Hc _]. apply id_char_true in Hc.
    by rewrite Hc in Hnone.
  - unfold extract_video_id in Hresult. by destruct (re_search s).
Qed.

(** X6: the dots of [youtu.be] and [youtube.com] are not escaped in the
    pattern, so any character but a newline is accepted in their place:
    an input that starts "youtu", one such character, "be/" and an
    identifier yields that identifier, and so for "youtube", one character,
    "com/watch?v=". *)
Theorem extract_video_id_dot_is_wildcard :
  forall (x : N) (g : str),
    x <> 10%N -> g <> [] -> Forall (fun c => c ∉ delimiters) g ->
    extract_video_id (py "youtu" ++ [x] ++ py "be/" ++ g) = Return g
    /\ extract_video_id (py "youtube" ++ [x] ++ py "com/watch?v=" ++ g) = Return g.
Proof.
  intros x g Hx Hne Hall.
  assert (Hdot : negb (x =? 10)%N = true).
  { apply negb_true_iff. by apply N.eqb_neq. }
  split; apply extract_video_id_Return; exists 0.
  - exists 2. split; [| intros; lia].
    apply matches_at_Some.
    exists (lits "youtu" ++ [Dot] ++ lits "be/"), (py "youtu" ++ [x] ++ py "be/"), [].
    repeat split; [| lia | | done | done | by left].
    + simpl. by rewrite Hdot.
    + rewrite app_nil_r, drop_0. by rewrite <- !app_assoc.
  - exists 15. split; [| intros; lia].
    apply matches_at_Some.
    exists (lits "youtube" ++ [Dot] ++ lits "com/watch?v="),
           (py "youtube" ++ [x] ++ py "com/watch?v="), [].
    repeat split; [| lia | | done | done | by left].
    + simpl. by rewrite Hdot.
    + rewrite app_nil_r, drop_0. by rewrite <- !app_assoc.
Qed.

Lemma extract_video_id_dot_is_wildcard_witness :
  45%N <> 10%N /\ py "abc123" <> []
  /\ extract_video_id (py "youtu-be/abc123") = Return (py "abc123")
  /\ extract_video_id (py "youtube-com/watch?v=abc123") = Return (py "abc123").
Proof.
  split; [discriminate |]. split; [discriminate |].
  apply (extract_video_id_dot_is_wildcard 45%N (py "abc123")).
  - discriminate.
  - discriminate.
  - apply id_chars_forallb. reflexivity.
Defined.

(** ** The client and its credential *)

(** X1: a key passed to the constructor wins over the environment; without
    one the variable [YOUTUBE_SEARCH_API] is used; when neither holds a
    non-empty string the constructor raises [EnvironmentError].  A client
    that has been built never has an empty key, and building it changes
    nothing in the world. *)
Theorem init_credential :
  (forall (w : world) (k : str),
      k <> [] -> init (Some k) w = (Return {| api_key := k |}, w))
  /\ (forall (w : world) (passed : option str) (k : str),
        nonempty passed = false -> k <> [] ->
        getenv w (py "YOUTUBE_SEARCH_API") = Some k ->
        init passed w = (Return {| api_key := k |}, w))
  /\ (forall (w : world) (passed : option str),
        nonempty passed = false ->
        nonempty (getenv w (py "YOUTUBE_SEARCH_API")) = false ->
        init passed w
        = (Raise (Exn EnvironmentError
                      (py "API key must be passed or YOUTUBE_SEARCH_API must be set.")), w))
  /\ (forall (w w' : world) (passed : option str) (client : YouTubeClient),
        init passed w = (Return client, w') -> w' = w /\ api_key client <> []).
Proof.
  split; [| split; [| split]].
  - intros w [| c k] Hk; [done | reflexivity].
  - intros w passed [| c k] Hpassed Hk Henv; [done |].
    unfold init. by rewrite Hpassed, Henv.
  - intros w passed Hpassed Henv. unfold init. rewrite Hpassed.
    by destruct (getenv w (py "YOUTUBE_SEARCH_API")) as [[| c k] |].
  - intros w w' passed client. unfold init.
    destruct (if nonempty passed then passed else getenv w (py "YOUTUBE_SEARCH_API"))
      as [[| c k] |]; [done | | done].
    by intros [= <- <-].
Qed.

(** ** More on transcripts *)

Lemma combine_entries_no_divergence (data : list (gmap str pyval)) (acc : str) (w : world) :
  (combine_entries data acc w).1 <> Diverge /\ (combine_entries data acc w).2 = w.
Proof.
  revert acc. induction data as [| entry data IH]; intros acc; [done |].
  simpl. unfold bind, lift.
  destruct (dict_getitem entry (py "text")) as [t | e |] eqn:Htext; simpl.
  - destruct (add_str t (py " ")) as [piece | e |] eqn:Hpiece; simpl; [apply IH | done |].
    by destruct t.
  - done.
  - unfold dict_getitem in Htext. by destruct (entry !! py "text").
Qed.

(** X7: [get_transcript] always ends, and an exception leaves it in two
    cases only: it is one that [except Exception] does not catch, or it is
    the error of the [print] in the handler, raised because standard output
    refuses the line "Error: ..." of an exception that was caught (from the
    service, a segment without usable text, or the output file).  On a
    stream that takes every text, then, nothing derived from [Exception]
    comes out. *)
Theorem get_transcript_escaping_exceptions :
  forall (w : world) (video_id : str) (output_file : option str) (language : str),
    let run := get_transcript video_id output_file language w in
    match run.1 with
    | Return _ => True
    | Raise e =>
        is_Exception e = false
        \/ exists caught : exn,
             is_Exception caught = true
             /\ print_error w (py "Error: " ++ exn_str caught) = Some e
    | Diverge => False
    end
    /\ ((forall line, stdout_error w line = None) ->
        match run.1 with
        | Return _ => True
        | Raise e => is_Exception e = false
        | Diverge => False
        end).
Proof.
  intros w video_id output_file language run.
  assert (Hmain : match run.1 with
                  | Return _ => True
                  | Raise e =>
                      is_Exception e = false
                      \/ exists caught : exn,
                           is_Exception caught = true
                           /\ print_error w (py "Error: " ++ exn_str caught) = Some e
                  | Diverge => False
                  end).
  { subst run. unfold get_transcript. rewrite try_except_print.
    unfold bind, fetch_raw_data.
    destruct (transcript_service w video_id [language]) as [e | data]; simpl.
    { destruct (is_Exception e) eqn:He; simpl; [| by left].
      case_print e' Hp; simpl; [| done].
      right. by exists e. }
    pose proof (combine_entries_no_divergence data [] (log (EvTranscript video_id [language]) w))
      as [Hnd Hw].
    destruct (combine_entries data [] (log (EvTranscript video_id [language]) w))
      as [[text | e |] w1]; simpl in *; subst w1; [| | done].
    - destruct (nonempty output_file); simpl; [| done].
      unfold open_write.
      match goal with
      | |- context [open_w_error ?w0 ?p] => destruct (open_w_error w0 p) as [e |]; simpl
      end.
      + destruct (is_Exception e) eqn:He; simpl; [| by left].
        case_print e' Hp; simpl; [| done].
        right. by exists e.
      + destruct (existsb is_surrogate (strip text)); simpl; [| done].
        case_print e' Hp; simpl; [| done].
        right. by exists (encode_error (strip text)).
    - destruct (is_Exception e) eqn:He; simpl; [| by left].
      case_print e' Hp; simpl; [| done].
      right. by exists e. }
  split; [exact Hmain |]. intros Hall.
  destruct run.1 as [r | e |]; [done | | done].
  destruct Hmain as [He | (caught & _ & Hp)]; [exact He |].
  unfold print_error in Hp. rewrite Hall in Hp. by destruct (forallb is_ascii _).
Qed.

Lemma get_transcript_escaping_exceptions_witness :
  let w := world_with_transcript (inl no_transcript) in
  (forall line, stdout_error w line = None)
  /\ match (get_transcript (py "abc123") (Some (py "out.txt")) (py "en") w).1 with
     | Return _ => True
     | Raise e => is_Exception e = false
     | Diverge => False
     end.
Proof.
  intros w. split; [done |].
  destruct (get_transcript_escaping_exceptions w (py "abc123") (Some (py "out.txt")) (py "en"))
    as [_ Hquiet].
  by apply Hquiet.
Defined.

Lemma combine_entries_missing_text
    (good : list (gmap str pyval)) (texts : list str)
    (bad : gmap str pyval) (rest : list (gmap str pyval)) :
  Forall2 (fun entry t => entry !! py "text" = Some (PStr t)) good texts ->
  bad !! py "text" = None ->
  forall (acc : str) (w : world),
    combine_entries (good ++ bad :: rest) acc w = (Raise (Exn KeyError (py "'text'")), w).
Proof.
  intros Hgood Hbad. induction Hgood as [| entry t good texts Hentry _ IH]; intros acc w.
  - simpl. unfold bind, lift, dict_getitem. by rewrite Hbad.
  - simpl. unfold bind, lift, dict_getitem. rewrite Hentry. simpl. apply IH.
Qed.

Example get_transcript_text_not_a_string :
  let data : list (gmap str pyval) := [<[py "text" := PInt 1]> ∅] in
  let w := world_with_transcript (inr data) in
  get_transcript (py "abc123") None (py "en") w
  = (Return None,
     log (EvPrint (py "Error: unsupported operand type(s) for +: 'int' and 'str'"))
         (log (EvTranscript (py "abc123") [py "en"]) w)).
Proof. vm_compute. reflexivity. Qed.

(** X8: when a segment has no [text] entry, the [KeyError] of the lookup is
    caught like a service failure: the call returns [None], prints
    "Error: 'text'" and does not write the output file, even if the
    segments before the faulty one were fine. *)
Theorem get_transcript_segment_without_text :
  forall (w : world) (video_id : str) (output_file : option str) (language : str)
         (good : list (gmap str pyval)) (texts : list str)
         (bad : gmap str pyval) (rest : list (gmap str pyval)),
    transcript_service w video_id [language] = inr (good ++ bad :: rest) ->
    Forall2 (fun entry t => entry !! py "text" = Some (PStr t)) good texts ->
    bad !! py "text" = None ->
    get_transcript video_id output_file language w
    = (Return None,
       log (EvPrint (py "Error: 'text'")) (log (EvTranscript video_id [language]) w)).
Proof.
  intros w video_id output_file language good texts bad rest Hservice Hgood Hbad.
  unfold get_transcript, try_except, bind, fetch_raw_data.
  rewrite Hservice. simpl.
  by rewrite (combine_entries_missing_text good texts bad rest Hgood Hbad).
Qed.

Lemma get_transcript_segment_without_text_witness :
  let bad : gmap str pyval := <[py "start" := PFloat 3%float]> ∅ in
  let w := world_with_transcript (inr (hello_world ++ [bad])) in
  transcript_service w (py "abc123") [py "en"] = inr (hello_world ++ bad :: [])
  /\ bad !! py "text" = None
  /\ get_transcript (py "abc123") (Some (py "out.txt")) (py "en") w
     = (Return None,
        log (EvPrint (py "Error: 'text'")) (log (EvTranscript (py "abc123") [py "en"]) w)).
Proof.
  intros bad w. split; [reflexivity |]. split; [reflexivity |].
  apply (get_transcript_segment_without_text w (py "abc123") (Some (py "out.txt")) (py "en")
           hello_world [py "Hello"; py "world"] bad []).
  - reflexivity.
  - repeat constructor.
  - reflexivity.
Defined.




(** X10: a transcript that is returned never starts or ends with a
    whitespace character, whatever the segments held. *)
Theorem get_transcript_text_is_stripped :
  forall (w : world) (video_id : str) (output_file : option str) (language t : str),
    (get_transcript video_id output_file language w).1 = Return (Some t) ->
    (forall c, head t = Some c -> is_whitespace c = false)
    /\ (forall c, last t = Some c -> is_whitespace c = false).
Proof.
  intros w video_id output_file language t.
  unfold get_transcript. rewrite try_except_print. unfold bind, fetch_raw_data.
  destruct (transcript_service w video_id [language]) as [e | data]; simpl.
  { destruct (is_Exception e); [case_print e' Hp |]; done. }
  destruct (combine_entries data [] (log (EvTranscript video_id [language]) w))
    as [[text | e |] w1]; simpl;
    [| destruct (is_Exception e); [case_print e' Hp |]; done | done].
  assert (Hdone : Return (Some (strip text)) = Return (Some t) ->
                  (forall c, head t = Some c -> is_whitespace c = false)
                  /\ (forall c, last t = Some c -> is_whitespace c = false)).
  { intros [= <-]. apply strip_ends. }
  destruct (nonempty output_file); simpl; [| exact Hdone].
  unfold open_write.
  destruct (open_w_error w1 (default [] output_file)) as [e |]; simpl.
  { destruct (is_Exception e); [case_print e' Hp |]; done. }
  destruct (existsb is_surrogate (strip text)); simpl; [| exact Hdone].
  case_print e' Hp; done.
Qed.

Lemma get_transcript_text_is_stripped_witness :
  let w := world_with_transcript
             (inr [segment (py "  Hello ") 0%float 1%float; segment (py "world  ") 1%float 1%float]) in
  (get_transcript (py "abc123") None (py "en") w).1 = Return (Some (py "Hello  world"))
  /\ (forall c, head (py "Hello  world") = Some c -> is_whitespace c = false)
  /\ (forall c, last (py "Hello  world") = Some c -> is_whitespace c = false).
Proof.
  intros w. split; [vm_compute; reflexivity |].
  apply (get_transcript_text_is_stripped w (py "abc123") None (py "en") (py "Hello  world")).
  vm_compute. reflexivity.
Defined.

Lemma lstrip_whitespace (s : str) : forallb is_whitespace s = true -> lstrip s = [].
Proof.
  induction s as [| c s IH]; simpl; [done |].
  intros [Hc Hs]%andb_prop. rewrite Hc. by apply IH.
Qed.

Lemma join_whitespace (texts : list str) :
  Forall (fun t => forallb is_whitespace t = true) texts ->
  forallb is_whitespace (join (py " ") texts) = true.
Proof.
  induction 1 as [| t texts Ht _ IH]; [done |].
  destruct texts as [| t' texts]; [exact Ht |].
  change (join (py " ") (t :: t' :: texts)) with (t ++ py " " ++ join (py " ") (t' :: texts)).
  rewrite !forallb_app, Ht, IH. reflexivity.
Qed.

(** X11: when the service returns no segment at all, or only segments whose
    texts are whitespace, the call returns the empty string, not [None]; an
    output file that was asked for is written, empty. *)
Theorem get_transcript_blank_transcript :
  forall (w : world) (video_id : str) (output_file : option str) (language : str)
         (data : list (gmap str pyval)) (texts : list str),
    transcript_service w video_id [language] = inr data ->
    Forall2 (fun entry t => entry !! py "text" = Some (PStr t)) data texts ->
    Forall (fun t => forallb is_whitespace t = true) texts ->
    (nonempty output_file = true -> open_w_error w (default [] output_file) = None) ->
    (get_transcript video_id output_file language w).1 = Return (Some [])
    /\ (nonempty output_file = true ->
        fs (get_transcript video_id output_file language w).2 (default [] output_file)
        = inr []).
Proof.
  intros w video_id output_file language data texts Hservice Htexts Hblank Hfile.
  unfold get_transcript, try_except, bind, fetch_raw_data.
  rewrite Hservice. simpl.
  rewrite (combine_entries_texts data texts Htexts). simpl.
  rewrite strip_concat_spaces.
  assert (Hempty : strip (join (py " ") texts) = []).
  { unfold strip. by rewrite lstrip_whitespace by by apply join_whitespace. }
  rewrite Hempty.
  destruct (nonempty output_file) eqn:Hout; simpl; [| done].
  unfold open_write. simpl. rewrite (Hfile eq_refl). simpl.
  split; [done |]. intros _. by rewrite decide_True.
Qed.

Lemma get_transcript_blank_transcript_witness :
  let w := world_with_transcript (inr [segment (py "  ") 0%float 1%float]) in
  transcript_service w (py "abc123") [py "en"] = inr [segment (py "  ") 0%float 1%float]
  /\ (get_transcript (py "abc123") (Some (py "out.txt")) (py "en") w).1 = Return (Some [])
  /\ (nonempty (Some (py "out.txt")) = true ->
      fs (get_transcript (py "abc123") (Some (py "out.txt")) (py "en") w).2
         (default [] (Some (py "out.txt")))
      = inr []).
Proof.
  intros w. split; [reflexivity |].
  apply (get_transcript_blank_transcript w (py "abc123") (Some (py "out.txt")) (py "en")
           [segment (py "  ") 0%float 1%float] [py "  "]).
  - reflexivity.
  - repeat constructor.
  - repeat constructor.
  - reflexivity.
Defined.

(** ** More on video metadata *)

Lemma snippet_url_quoted (self : YouTubeClient) (video_id : str) :
  snippet_url self video_id
  = match quote_plus video_id, quote_plus (api_key self) with
    | Some qid, Some qkey =>
        Return (BASE_VIDEO_API ++ py "?part=snippet&id=" ++ qid ++ py "&key=" ++ qkey)
    | None, _ => Raise (encode_error video_id)
    | Some _, None => Raise (encode_error (api_key self))
    end.
Proof.
  unfold snippet_url, urlencode. cbn [urlencode_pairs]. unfold quote_via.
  change (quote_plus (py "part")) with (Some (py "part")).
  change (quote_plus (py "snippet")) with (Some (py "snippet")).
  change (quote_plus (py "id")) with (Some (py "id")).
  change (quote_plus (py "key")) with (Some (py "key")).
  cbn iota.
  destruct (quote_plus video_id) as [qid |]; [| done].
  by destruct (quote_plus (api_key self)) as [qkey |].
Qed.

Example encode_error_text :
  encode_error (py "a" ++ [55296%N])
  = Exn UnicodeEncodeError
        (py "'utf-8' codec can't encode character '\ud800' in position 1: surrogates not allowed")
  /\ encode_error (py "ab" ++ [55296%N; 57343%N] ++ py "c")
     = Exn UnicodeEncodeError
           (py "'utf-8' codec can't encode characters in position 2-3: surrogates not allowed").
Proof. split; vm_compute; reflexivity. Qed.

Lemma hex_digit_unreserved (n : N) : (n < 16)%N -> is_unreserved (hex_digit n) = true.
Proof.
  intros Hn. unfold hex_digit, is_unreserved.
  destruct (N.ltb_spec n 10) as [Hlt | Hge].
  - assert (H1 : (48 <=? 48 + n)%N = true) by (apply N.leb_le; lia).
    assert (H2 : (48 + n <=? 57)%N = true) by (apply N.leb_le; lia).
    rewrite H1, H2. by rewrite !orb_true_r.
  - assert (H1 : (65 <=? 55 + n)%N = true) by (apply N.leb_le; lia).
    assert (H2 : (55 + n <=? 90)%N = true) by (apply N.leb_le; lia).
    by rewrite H1, H2.
Qed.

Lemma utf8_bytes (c : N) (bytes : list N) :
  utf8 c = Some bytes -> Forall (fun b => (b < 256)%N) bytes.
Proof.
  unfold utf8.
  destruct (N.ltb_spec c 128); [intros [= <-]; repeat constructor; lia |].
  destruct (N.ltb_spec c 2048).
  { intros [= <-]. repeat constructor.
    - pose proof (N.Div0.div_lt_upper_bound c 64 32). lia.
    - pose proof (N.mod_upper_bound c 64). lia. }
  destruct (N.ltb_spec c 65536).
  { destruct (is_surrogate c); [done |]. intros [= <-]. repeat constructor.
    - pose proof (N.Div0.div_lt_upper_bound c 4096 16). lia.
    - pose proof (N.mod_upper_bound (c / 64) 64). lia.
    - pose proof (N.mod_upper_bound c 64). lia. }
  destruct (N.ltb_spec c 1114112); [| done].
  intros [= <-]. repeat constructor.
  - pose proof (N.Div0.div_lt_upper_bound c 262144 5). lia.
  - pose proof (N.mod_upper_bound (c / 4096) 64). lia.
  - pose proof (N.mod_upper_bound (c / 64) 64). lia.
  - pose proof (N.mod_upper_bound c 64). lia.
Qed.

Lemma percent_safe (b : N) : (b < 256)%N -> Forall (fun c => query_safe c = true) (percent b).
Proof.
  intros Hb. unfold percent.
  assert (H1 : (b / 16 < 16)%N) by (apply N.Div0.div_lt_upper_bound; lia).
  assert (H2 : (b mod 16 < 16)%N) by (apply N.mod_upper_bound; lia).
  repeat constructor; unfold query_safe; by rewrite hex_digit_unreserved.
Qed.

Lemma quote_char_safe (c : N) (out : str) :
  quote_char c = Some out -> Forall (fun x => query_safe x = true) out.
Proof.
  unfold quote_char.
  destruct (is_unreserved c) eqn:Hc.
  { intros [= <-]. repeat constructor. unfold query_safe. by rewrite Hc. }
  destruct (c =? 32)%N; [intros [= <-]; by repeat constructor |].
  destruct (utf8 c) as [bytes |] eqn:Hbytes; [| done]. simpl. intros [= <-].
  apply utf8_bytes in Hbytes. induction Hbytes as [| b bytes Hb _ IH]; [constructor |].
  change (concat (percent <$> b :: bytes)) with (percent b ++ concat (percent <$> bytes)).
  apply Forall_app.
  split; [by apply percent_safe | exact IH].
Qed.

Lemma quote_plus_safe (s out : str) :
  quote_plus s = Some out -> Forall (fun x => query_safe x = true) out.
Proof.
  unfold quote_plus. destruct (mapM quote_char s) as [pieces |] eqn:Hpieces; [| done].
  simpl. intros [= <-]. apply mapM_Some_1 in Hpieces.
  induction Hpieces as [| c piece s pieces Hc _ IH]; [constructor |].
  change (concat (piece :: pieces)) with (piece ++ concat pieces).
  apply Forall_app.
  split; [by eapply quote_char_safe | exact IH].
Qed.

Lemma quote_plus_unreserved (s : str) :
  forallb is_unreserved s = true -> quote_plus s = Some s.
Proof.
  intros Hs. unfold quote_plus.
  assert (Hpieces : mapM quote_char s = Some ((fun c => [c]) <$> s)).
  { apply mapM_Some_2. induction s as [| c s IH]; [constructor |].
    simpl in Hs. apply andb_prop in Hs as [Hc Hs].
    constructor; [| by apply IH]. unfold quote_char. by rewrite Hc. }
  rewrite Hpieces. simpl. f_equal.
  clear. induction s as [| c s IH]; simpl; [done | by f_equal].
Qed.

(** X12: whatever the video identifier and the key hold, the URL of the
    request is the base address followed by exactly the three parameters
    [part=snippet], [id] and [key]; the two values are quoted into letters,
    digits, [_.-~], [+] and [%], so that no [&], [=], [#], [?], [/] or space
    of an identifier reaches the query string. *)
Theorem snippet_url_query_is_quoted :
  forall (self : YouTubeClient) (video_id url : str),
    snippet_url self video_id = Return url ->
    exists qid qkey : str,
      url = BASE_VIDEO_API ++ py "?part=snippet&id=" ++ qid ++ py "&key=" ++ qkey
      /\ quote_plus video_id = Some qid /\ quote_plus (api_key self) = Some qkey
      /\ Forall (fun c => query_safe c = true) (qid ++ qkey)
      /\ forall c, c ∈ qid ++ qkey -> c ∉ py "&=#?/ ".
Proof.
  intros self video_id url. rewrite snippet_url_quoted.
  destruct (quote_plus video_id) as [qid |] eqn:Hid; [| done].
  destruct (quote_plus (api_key self)) as [qkey |] eqn:Hkey; [| done].
  intros [= <-]. exists qid, qkey.
  assert (Hsafe : Forall (fun c => query_safe c = true) (qid ++ qkey)).
  { apply Forall_app. split; by eapply quote_plus_safe. }
  repeat split; [exact Hsafe |].
  intros c Hc Hbad. rewrite Forall_forall in Hsafe. specialize (Hsafe c Hc).
  apply list_elem_of_In in Hbad. simpl in Hbad.
  destruct Hbad as [<- | [<- | [<- | [<- | [<- | [<- | []]]]]]]; discriminate Hsafe.
Qed.

Lemma snippet_url_query_is_quoted_witness :
  snippet_url sample_client (py "a&b=c d")
  = Return (py "https://www.googleapis.com/youtube/v3/videos?part=snippet&id=a%26b%3Dc+d&key=KEY")
  /\ exists qid qkey : str,
      py "https://www.googleapis.com/youtube/v3/videos?part=snippet&id=a%26b%3Dc+d&key=KEY"
      = BASE_VIDEO_API ++ py "?part=snippet&id=" ++ qid ++ py "&key=" ++ qkey
      /\ quote_plus (py "a&b=c d") = Some qid /\ quote_plus (api_key sample_client) = Some qkey
      /\ Forall (fun c => query_safe c = true) (qid ++ qkey)
      /\ forall c, c ∈ qid ++ qkey -> c ∉ py "&=#?/ ".
Proof.
  split; [vm_compute; reflexivity |].
  apply (snippet_url_query_is_quoted sample_client (py "a&b=c d")).
  vm_compute. reflexivity.
Defined.

(** X13: for an identifier and a key made of letters, digits and [_.-~]
    only, as YouTube identifiers are, nothing is rewritten: the URL is the
    base address, [?part=snippet&id=], the identifier, [&key=] and the
    key. *)
Theorem snippet_url_plain_identifier :
  forall (self : YouTubeClient) (video_id : str),
    forallb is_unreserved video_id = true ->
    forallb is_unreserved (api_key self) = true ->
    snippet_url self video_id
    = Return (BASE_VIDEO_API ++ py "?part=snippet&id=" ++ video_id
              ++ py "&key=" ++ api_key self).
Proof.
  intros self video_id Hid Hkey.
  rewrite snippet_url_quoted.
  by rewrite (quote_plus_unreserved video_id Hid), (quote_plus_unreserved (api_key self) Hkey).
Qed.

Lemma snippet_url_plain_identifier_witness :
  forallb is_unreserved (py "dQw4w9WgXcQ") = true
  /\ forallb is_unreserved (api_key sample_client) = true
  /\ snippet_url sample_client (py "dQw4w9WgXcQ")
     = Return (BASE_VIDEO_API ++ py "?part=snippet&id=" ++ py "dQw4w9WgXcQ"
               ++ py "&key=" ++ api_key sample_client).
Proof.
  split; [reflexivity |]. split; [reflexivity |].
  apply (snippet_url_plain_identifier sample_client (py "dQw4w9WgXcQ")); reflexivity.
Defined.

Lemma raise_for_status_world (resp : response) (w : world) :
  (raise_for_status resp w).2 = w.
Proof.
  unfold raise_for_status.
  destruct ((400 <=? status_code resp) && (status_code resp <? 500))%Z; [done |].
  by destruct ((500 <=? status_code resp) && (status_code resp <? 600))%Z.
Qed.

(** What [fetch_video_snippet] does to the world once the URL is built:
    the one request. *)
Lemma fetch_video_snippet_world (w : world) (self : YouTubeClient) (video_id url : str) :
  snippet_url self video_id = Return url ->
  (fetch_video_snippet self video_id w).2 = log (EvGet url) w.
Proof.
  intros Hurl. unfold fetch_video_snippet, bind, lift, requests_get. rewrite Hurl. simpl.
  destruct (http w url) as [e | resp]; simpl; [done |].
  pose proof (raise_for_status_world resp (log (EvGet url) w)) as Hworld.
  destruct (raise_for_status resp (log (EvGet url) w)) as [[[] | e |] w1];
    simpl in Hworld; subst w1; [| done | done].
  destruct (resp_json resp) as [e | data]; simpl; [done |].
  destruct (py_get data (py "items")) as [items | e |]; simpl; [| done | done].
  destruct (negb (truthy items)); simpl; [done |].
  destruct (getitem_key data (py "items")) as [items' | e |]; simpl; [| done | done].
  destruct (getitem_0 items') as [item | e |]; simpl; [| done | done].
  by destruct (getitem_key item (py "snippet")).
Qed.

(** A string with a surrogate cannot be quoted. *)
Lemma quote_plus_surrogate (s : str) (c : N) :
  c ∈ s -> is_surrogate c = true -> quote_plus s = None.
Proof.
  intros Hin Hc. unfold quote_plus.
  assert (Hnone : mapM quote_char s = None); [| by rewrite Hnone].
  apply mapM_None_2, Exists_exists. exists c. split; [done |].
  unfold quote_char, utf8, is_unreserved, is_surrogate in *.
  apply andb_prop in Hc as [Hlo%N.leb_le Hhi%N.leb_le].
  repeat match goal with
         | |- context [(?a <=? ?b)%N] => destruct (N.leb_spec a b); try lia
         | |- context [(?a <? ?b)%N] => destruct (N.ltb_spec a b); try lia
         | |- context [(?a =? ?b)%N] => destruct (N.eqb_spec a b); try lia
         end; simpl; done.
Qed.

(** X14: [fetch_video_snippet] sends one request, to the URL built from
    its arguments, whatever comes of it; an error of the request itself
    (no network, timeout) is passed on unchanged; and when the identifier,
    or else the key, holds a surrogate, which UTF-8 cannot encode, the call
    raises the [UnicodeEncodeError] of that string before anything is
    sent. *)
Theorem fetch_video_snippet_single_request :
  forall (w : world) (self : YouTubeClient) (video_id : str),
    (forall url, snippet_url self video_id = Return url ->
                 (fetch_video_snippet self video_id w).2 = log (EvGet url) w
                 /\ forall e, http w url = inl e ->
                              (fetch_video_snippet self video_id w).1 = Raise e)
    /\ ((exists c, c ∈ video_id /\ is_surrogate c = true) ->
        fetch_video_snippet self video_id w = (Raise (encode_error video_id), w))
    /\ (is_Some (quote_plus video_id) ->
        (exists c, c ∈ api_key self /\ is_surrogate c = true) ->
        fetch_video_snippet self video_id w = (Raise (encode_error (api_key self)), w)).
Proof.
  intros w self video_id. split; [| split].
  - intros url Hurl. split; [by apply fetch_video_snippet_world |].
    intros e Hhttp. unfold fetch_video_snippet, bind, lift, requests_get.
    by rewrite Hurl; simpl; rewrite Hhttp.
  - intros (c & Hin & Hc).
    unfold fetch_video_snippet, bind, lift.
    by rewrite snippet_url_quoted, (quote_plus_surrogate video_id c Hin Hc).
  - intros [qid Hid] (c & Hin & Hc).
    unfold fetch_video_snippet, bind, lift.
    by rewrite snippet_url_quoted, Hid, (quote_plus_surrogate (api_key self) c Hin Hc).
Qed.

Section answered_request.
Context (w : world) (self : YouTubeClient) (video_id url : str) (resp : response).
Hypothesis Hurl : snippet_url self video_id = Return url.
Hypothesis Hhttp : http w url = inr resp.
Hypothesis Hstatus : ~ (400 <= status_code resp < 600)%Z.

(** The call after an answer that is no client or server error: the
    request is logged and the body is looked at. *)
Lemma fetch_video_snippet_body :
  fetch_video_snippet self video_id w
  = (match resp_json resp with
     | inl e => Raise e
     | inr data =>
         match py_get data (py "items") with
         | Return items =>
             if negb (truthy items) then Raise (Exn ValueError (py "Video snippet not found."))
             else
               match getitem_key data (py "items") with
               | Return items' =>
                   match getitem_0 items' with
                   | Return item => getitem_key item (py "snippet")
                   | Raise e => Raise e
                   | Diverge => Diverge
                   end
               | Raise e => Raise e
               | Diverge => Diverge
               end
         | Raise e => Raise e
         | Diverge => Diverge
         end
     end, log (EvGet url) w).
Proof using Hurl Hhttp Hstatus.
  unfold fetch_video_snippet, bind, lift, requests_get. rewrite Hurl. simpl.
  rewrite Hhttp. simpl. rewrite (raise_for_status_ok resp _ Hstatus).
  destruct (resp_json resp) as [e | data]; simpl; [done |].
  destruct (py_get data (py "items")) as [items | e |]; simpl; [| done | done].
  destruct (negb (truthy items)); simpl; [done |].
  destruct (getitem_key data (py "items")) as [items' | e |]; simpl; [| done | done].
  destruct (getitem_0 items') as [item | e |]; simpl; [| done | done].
  by destruct (getitem_key item (py "snippet")).
Qed.

(** X15: what an answer that is no client or server error leads to when
    its body is not what the API documents: a body that is no JSON passes
    the decoding error on; a JSON value that is no object raises
    [AttributeError]; any false value under [items] (null, false, 0, the
    empty string, list or object) is the not-found error; and a first item
    without [snippet] raises [KeyError]. *)
Theorem fetch_video_snippet_unexpected_body :
  (forall e, resp_json resp = inl e ->
             (fetch_video_snippet self video_id w).1 = Raise e)
  /\ (forall data, resp_json resp = inr data -> (forall d, data <> PDict d) ->
        (fetch_video_snippet self video_id w).1
        = Raise (Exn AttributeError
                     (py "'" ++ type_name data ++ py "' object has no attribute 'get'")))
  /\ (forall d items, resp_json resp = inr (PDict d) ->
        d !! py "items" = Some items -> truthy items = false ->
        (fetch_video_snippet self video_id w).1
        = Raise (Exn ValueError (py "Video snippet not found.")))
  /\ (forall d item others, resp_json resp = inr (PDict d) ->
        d !! py "items" = Some (PList (PDict item :: others)) ->
        item !! py "snippet" = None ->
        (fetch_video_snippet self video_id w).1 = Raise (Exn KeyError (py "'snippet'"))).
Proof using Hurl Hhttp Hstatus.
  rewrite fetch_video_snippet_body. simpl. split; [| split; [| split]].
  - by intros e ->.
  - intros data -> Hdata. destruct data as [| | | | | | t]; try done. by destruct (Hdata t).
  - intros d items -> Hitems Hfalse. simpl. rewrite Hitems. simpl. by rewrite Hfalse.
  - intros d item others -> Hitems Hsnippet. simpl.
    unfold dict_getitem at 1. rewrite Hitems. simpl.
    unfold dict_getitem. by rewrite Hsnippet.
Qed.

End answered_request.

Lemma fetch_video_snippet_unexpected_body_witness :
  let resp := Response 200 (py "OK") sample_url (inr (PList [])) in
  let w := world_with_response resp in
  snippet_url sample_client (py "abc123") = Return sample_url
  /\ http w sample_url = inr resp
  /\ ~ (400 <= status_code resp < 600)%Z
  /\ (fetch_video_snippet sample_client (py "abc123") w).1
     = Raise (Exn AttributeError (py "'list' object has no attribute 'get'")).
Proof.
  intros resp w.
  assert (Hurl : snippet_url sample_client (py "abc123") = Return sample_url)
    by (vm_compute; reflexivity).
  assert (Hstatus : ~ (400 <= status_code resp < 600)%Z) by (simpl; lia).
  split; [exact Hurl |]. split; [reflexivity |]. split; [exact Hstatus |].
  destruct (fetch_video_snippet_unexpected_body w sample_client (py "abc123") sample_url resp
              Hurl eq_refl Hstatus) as (_ & Hvalue & _).
  apply (Hvalue (PList [])); [reflexivity | discriminate].
Defined.

Section answered_with_snippet.
Context (w : world) (self : YouTubeClient) (video_id url : str) (resp : response).
Context (d item : gmap str pyval) (others : list pyval) (snippet : gmap str pyval).
Hypothesis Hurl : snippet_url self video_id = Return url.
Hypothesis Hhttp : http w url = inr resp.
Hypothesis Hstatus : ~ (400 <= status_code resp < 600)%Z.
Hypothesis Hjson : resp_json resp = inr (PDict d).
Hypothesis Hitems : d !! py "items" = Some (PList (PDict item :: others)).
Hypothesis Hsnippet : item !! py "snippet" = Some (PDict snippet).

Lemma fetch_video_snippet_answer :
  fetch_video_snippet self video_id w = (Return (PDict snippet), log (EvGet url) w).
Proof using Hurl Hhttp Hstatus Hjson Hitems Hsnippet.
  rewrite (fetch_video_snippet_body w self video_id url resp Hurl Hhttp Hstatus).
  rewrite Hjson. simpl. rewrite Hitems. simpl.
  unfold dict_getitem at 1. rewrite Hitems. simpl.
  unfold dict_getitem. by rewrite Hsnippet.
Qed.

(** X16: for a well-formed answer, [get_video_title] returns what the first
    item's snippet holds under [title] (of whatever JSON type), and the
    empty string when the snippet has no title; the only effect is the
    request. *)
Theorem get_video_title_of_answer :
  (forall title, snippet !! py "title" = Some title ->
                 get_video_title self video_id w = (Return title, log (EvGet url) w))
  /\ (snippet !! py "title" = None ->
      get_video_title self video_id w = (Return (PStr []), log (EvGet url) w)).
Proof using Hurl Hhttp Hstatus Hjson Hitems Hsnippet.
  unfold get_video_title, bind, lift. rewrite fetch_video_snippet_answer. simpl.
  split; [intros title Htitle | intros Htitle]; by rewrite Htitle.
Qed.

(** X17: for a well-formed answer, [get_thumbnail_url] returns the [url] of
    the [medium] entry of [thumbnails], and [None] as soon as [thumbnails],
    [medium] or [url] is missing; a [thumbnails] or [medium] entry that is
    there but is no object (null, say) is not covered by the defaults and
    raises [AttributeError]. *)
Theorem get_thumbnail_url_of_answer :
  (snippet !! THUMB_FIELD = None ->
   get_thumbnail_url self video_id w = (Return PNone, log (EvGet url) w))
  /\ (forall thumbs, snippet !! THUMB_FIELD = Some (PDict thumbs) ->
        thumbs !! py "medium" = None ->
        get_thumbnail_url self video_id w = (Return PNone, log (EvGet url) w))
  /\ (forall thumbs medium, snippet !! THUMB_FIELD = Some (PDict thumbs) ->
        thumbs !! py "medium" = Some (PDict medium) ->
        get_thumbnail_url self video_id w
        = (Return (default PNone (medium !! py "url")), log (EvGet url) w))
  /\ (forall v, snippet !! THUMB_FIELD = Some v -> (forall t, v <> PDict t) ->
        (get_thumbnail_url self video_id w).1
        = Raise (Exn AttributeError
                     (py "'" ++ type_name v ++ py "' object has no attribute 'get'")))
  /\ (forall thumbs v, snippet !! THUMB_FIELD = Some (PDict thumbs) ->
        thumbs !! py "medium" = Some v -> (forall m, v <> PDict m) ->
        (get_thumbnail_url self video_id w).1
        = Raise (Exn AttributeError
                     (py "'" ++ type_name v ++ py "' object has no attribute 'get'"))).
Proof using Hurl Hhttp Hstatus Hjson Hitems Hsnippet.
  unfold get_thumbnail_url, bind, lift. rewrite fetch_video_snippet_answer. simpl.
  split; [| split; [| split; [| split]]].
  - intros ->. simpl. by rewrite lookup_empty.
  - intros thumbs -> Hmedium. simpl. rewrite Hmedium. simpl. by rewrite lookup_empty.
  - intros thumbs medium -> Hmedium. simpl. by rewrite Hmedium.
  - intros v -> Hv. simpl. destruct v as [| | | | | | t]; try done. by destruct (Hv t).
  - intros thumbs v -> Hmedium Hv. simpl. rewrite Hmedium. simpl.
    destruct v as [| | | | | | t]; try done. by destruct (Hv t).
Qed.

End answered_with_snippet.

Lemma get_video_title_of_answer_witness :
  let w := world_with_response sample_response in
  snippet_url sample_client (py "abc123") = Return sample_url
  /\ http w sample_url = inr sample_response
  /\ get_video_title sample_client (py "abc123") w
     = (Return (PStr (py "A talk")), log (EvGet sample_url) w).
Proof.
  intros w.
  assert (Hurl : snippet_url sample_client (py "abc123") = Return sample_url)
    by (vm_compute; reflexivity).
  split; [exact Hurl |]. split; [reflexivity |].
  destruct (get_video_title_of_answer w sample_client (py "abc123") sample_url sample_response
              sample_body sample_item [] sample_snippet Hurl eq_refl
              ltac:(simpl; lia) eq_refl eq_refl eq_refl) as [Htitle _].
  apply Htitle. reflexivity.
Defined.

Lemma get_thumbnail_url_of_answer_witness :
  let w := world_with_response sample_response in
  snippet_url sample_client (py "abc123") = Return sample_url
  /\ http w sample_url = inr sample_response
  /\ get_thumbnail_url sample_client (py "abc123") w
     = (Return (PStr sample_thumbnail_url), log (EvGet sample_url) w).
Proof.
  intros w.
  assert (Hurl : snippet_url sample_client (py "abc123") = Return sample_url)
    by (vm_compute; reflexivity).
  split; [exact Hurl |]. split; [reflexivity |].
  destruct (get_thumbnail_url_of_answer w sample_client (py "abc123") sample_url sample_response
              sample_body sample_item [] sample_snippet Hurl eq_refl
              ltac:(simpl; lia) eq_refl eq_refl eq_refl) as (_ & _ & Hmedium & _).
  apply (Hmedium sample_thumbnails sample_medium); reflexivity.
Defined.

Lemma get_video_title_world (w : world) (self : YouTubeClient) (video_id : str) :
  (get_video_title self video_id w).2 = (fetch_video_snippet self video_id w).2.
Proof.
  unfold get_video_title, bind, lift.
  by destruct (fetch_video_snippet self video_id w) as [[snippet | e |] w1].
Qed.

Lemma get_thumbnail_url_world (w : world) (self : YouTubeClient) (video_id : str) :
  (get_thumbnail_url self video_id w).2 = (fetch_video_snippet self video_id w).2.
Proof.
  unfold get_thumbnail_url, bind, lift.
  destruct (fetch_video_snippet self video_id w) as [[snippet | e |] w1]; simpl; [| done | done].
  destruct (py_get_or snippet THUMB_FIELD (PDict ∅)) as [thumbs | e |]; simpl; [| done | done].
  by destruct (py_get_or thumbs (py "medium") (PDict ∅)).
Qed.

(** X18: nothing is kept between calls: asking for the title and then for
    the thumbnail URL of the same video sends the same request twice,
    whatever the answers are. *)
Theorem title_then_thumbnail_requests_twice :
  forall (w : world) (self : YouTubeClient) (video_id url : str),
    snippet_url self video_id = Return url ->
    events (get_thumbnail_url self video_id (get_video_title self video_id w).2).2
    = events w ++ [EvGet url; EvGet url].
Proof.
  intros w self video_id url Hurl.
  rewrite get_thumbnail_url_world, get_video_title_world.
  rewrite !(fetch_video_snippet_world _ self video_id url Hurl). simpl.
  by rewrite <- app_assoc.
Qed.

Lemma title_then_thumbnail_requests_twice_witness :
  let w := world_with_response sample_response in
  snippet_url sample_client (py "abc123") = Return sample_url
  /\ events (get_thumbnail_url sample_client (py "abc123")
               (get_video_title sample_client (py "abc123") w).2).2
     = events w ++ [EvGet sample_url; EvGet sample_url].
Proof.
  intros w.
  assert (Hurl : snippet_url sample_client (py "abc123") = Return sample_url)
    by (vm_compute; reflexivity).
  split; [exact Hurl |].
  apply (title_then_thumbnail_requests_twice w sample_client (py "abc123") sample_url Hurl).
Defined.

(** ** Thumbnails *)

(** X19: when the metadata holds no usable thumbnail URL ([None], or any
    other false value), [download_thumbnail] returns [None] after the one
    metadata request: nothing else is requested, printed or saved. *)
Theorem download_thumbnail_without_url :
  forall (lib : imaging) (w : world) (self : YouTubeClient)
         (video_id url save_path : str) (thumb_url : pyval),
    snippet_url self video_id = Return url ->
    (get_thumbnail_url self video_id w).1 = Return thumb_url ->
    truthy thumb_url = false ->
    download_thumbnail lib self video_id save_path w = (Return None, log (EvGet url) w).
Proof.
  intros lib w self video_id url save_path thumb_url Hurl Hthumb Hfalse.
  pose proof (get_thumbnail_url_world w self video_id) as Hworld.
  rewrite (fetch_video_snippet_world w self video_id url Hurl) in Hworld.
  unfold download_thumbnail, bind.
  destruct (get_thumbnail_url self video_id w) as [r w1]. simpl in *. subst.
  by rewrite Hfalse.
Qed.

Lemma download_thumbnail_without_url_witness :
  let body : gmap str pyval :=
    <[py "items" := PList [PDict (<[py "snippet" := PDict (<[py "title" := PStr (py "A talk")]> ∅)]> ∅)]]> ∅ in
  let w := world_with_response (Response 200 (py "OK") sample_url (inr (PDict body))) in
  snippet_url sample_client (py "abc123") = Return sample_url
  /\ (get_thumbnail_url sample_client (py "abc123") w).1 = Return PNone
  /\ truthy PNone = false
  /\ download_thumbnail no_imaging sample_client (py "abc123") (py "thumb.jpg") w
     = (Return None, log (EvGet sample_url) w).
Proof.
  intros body w.
  assert (Hurl : snippet_url sample_client (py "abc123") = Return sample_url)
    by (vm_compute; reflexivity).
  assert (Hthumb : (get_thumbnail_url sample_client (py "abc123") w).1 = Return PNone)
    by (vm_compute; reflexivity).
  split; [exact Hurl |]. split; [exact Hthumb |]. split; [reflexivity |].
  apply (download_thumbnail_without_url no_imaging w sample_client (py "abc123") sample_url
           (py "thumb.jpg") PNone Hurl Hthumb eq_refl).
Defined.

(** X20: once a thumbnail URL has been found, every failure inside the
    [try] (a failing request, an error status, a body that is no image, a
    failing save, a URL that is no string) ends in the handler: the line
    "Image error: ..." is printed and the result is [None], unless standard
    output refuses the line, in which case the error of [print] leaves the
    call.  No other exception derived from [Exception] comes out, and when
    every step succeeds the result is [save_path]. *)
Theorem download_thumbnail_outcomes :
  forall (lib : imaging) (w w1 : world) (self : YouTubeClient)
         (video_id save_path : str) (thumb_url : pyval),
    get_thumbnail_url self video_id w = (Return thumb_url, w1) ->
    truthy thumb_url = true ->
    let run := download_thumbnail lib self video_id save_path w in
    let failed (e : exn) (w' : world) : outcome (option str) * world :=
      match print_error w' (py "Image error: " ++ exn_str e) with
      | Some e' => (Raise e', w')
      | None => (Return None, log (EvPrint (py "Image error: " ++ exn_str e)) w')
      end in
    match run.1 with
    | Return (Some p) => p = save_path
    | Return None => True
    | Raise e =>
        is_Exception e = false
        \/ exists (caught : exn) (w' : world),
             is_Exception caught = true
             /\ print_error w' (py "Image error: " ++ exn_str caught) = Some e
    | Diverge => True
    end
    /\ ((forall u, thumb_url <> PStr u) ->
        run = failed (Exn (OtherException (py "RequestException"))
                          (invalid_url_text lib thumb_url)) w1)
    /\ (forall u e, thumb_url = PStr u -> http w1 u = inl e -> is_Exception e = true ->
          run = failed e (log (EvGet u) w1))
    /\ (forall u r, thumb_url = PStr u -> http w1 u = inr r ->
          (400 <= status_code r < 600)%Z ->
          exists detail,
            run = failed (Exn (HTTPError (status_code r))
                              (py (pretty (status_code r)) ++ detail))
                         (log (EvGet u) w1))
    /\ (forall u r e, thumb_url = PStr u -> http w1 u = inr r ->
          ~ (400 <= status_code r < 600)%Z ->
          Image_open lib r = inl e -> is_Exception e = true ->
          run = failed e (log (EvGet u) w1))
    /\ (forall u r img e w2, thumb_url = PStr u -> http w1 u = inr r ->
          ~ (400 <= status_code r < 600)%Z ->
          Image_open lib r = inr img ->
          Image_save lib img save_path (log (EvGet u) w1) = (Raise e, w2) ->
          is_Exception e = true ->
          run = failed e w2)
    /\ (forall u r img w2, thumb_url = PStr u -> http w1 u = inr r ->
          ~ (400 <= status_code r < 600)%Z ->
          Image_open lib r = inr img ->
          Image_save lib img save_path (log (EvGet u) w1) = (Return tt, w2) ->
          run = (Return (Some save_path), w2)).
Proof.
  intros lib w w1 self video_id save_path thumb_url Hthumb Htrue run failed.
  assert (Hrun : run = try_download lib thumb_url save_path w1).
  { subst run. unfold download_thumbnail, bind. by rewrite Hthumb, Htrue. }
  rewrite Hrun. clear Hrun run. subst failed.
  unfold try_download.
  match goal with |- context [try_except ?b _ _] => set (body := b) end.
  rewrite try_except_print.
  split; [| split; [| split; [| split; [| split; [| split]]]]]; subst body.
  - match goal with
    | |- context [match ?b with _ => _ end] =>
        destruct b as [[[p |] | e |] w2] eqn:Hbody; simpl; [| done | | done]
    end.
    + revert Hbody. unfold bind, requests_get_value, requests_get, raise, lift, ret.
      destruct thumb_url as [| b | z | f | u | l | d]; simpl; try done.
      destruct (http w1 u) as [e | r]; simpl; [done |].
      destruct (raise_for_status r (log (EvGet u) w1)) as [[[] | e |] w3]; simpl; [| done..].
      destruct (Image_open lib r) as [e | img]; simpl; [done |].
      destruct (Image_save lib img save_path w3) as [[[] | e |] w4]; simpl; [| done..].
      by intros [= <- _].
    + destruct (is_Exception e) eqn:He; simpl; [| by left].
      case_print e' Hp; simpl; [| done]. right. by exists e, w2.
  - intros Hnot. unfold bind, requests_get_value, raise.
    destruct thumb_url as [| b | z | f | u | l | d]; simpl; [done.. | | done | done].
    by destruct (Hnot u).
  - intros u e -> Hhttp He. unfold bind, requests_get_value, requests_get.
    rewrite Hhttp. simpl. by rewrite He.
  - intros u r -> Hhttp Hcode. unfold bind, requests_get_value, requests_get.
    rewrite Hhttp. simpl.
    destruct (raise_for_status_error r (log (EvGet u) w1) Hcode) as (detail & ->).
    simpl. by exists detail.
  - intros u r e -> Hhttp Hcode Hopen He. unfold bind, requests_get_value, requests_get, lift.
    rewrite Hhttp. simpl. rewrite (raise_for_status_ok r _ Hcode), Hopen. simpl.
    by rewrite He.
  - intros u r img e w2 -> Hhttp Hcode Hopen Hsave He.
    unfold bind, requests_get_value, requests_get, lift.
    rewrite Hhttp. simpl. rewrite (raise_for_status_ok r _ Hcode), Hopen. simpl.
    rewrite Hsave. simpl. by rewrite He.
  - intros u r img w2 -> Hhttp Hcode Hopen Hsave.
    unfold bind, requests_get_value, requests_get, lift.
    rewrite Hhttp. simpl. rewrite (raise_for_status_ok r _ Hcode), Hopen. simpl.
    by rewrite Hsave.
Qed.

Example download_thumbnail_unprintable_error :
  let broken := Exn (OtherException (py "OSError")) (py "image cass" ++ [233%N] ++ py "e") in
  let lib := Imaging unit (fun _ => inl broken) (fun _ _ => ret tt)
                     (fun _ => py "Invalid URL: No scheme supplied") in
  let w := with_stdout ascii_stdout (world_with_response sample_response) in
  (download_thumbnail lib sample_client (py "abc123") (py "thumb.jpg") w).1
  = Raise (Exn UnicodeEncodeError
               (py "'ascii' codec can't encode character '\xe9' in position 23: ordinal not in range(128)")).
Proof. vm_compute. reflexivity. Qed.

(** X21: the metadata lookup is made before the [try]: when it fails (an
    HTTP error, no item for the identifier, no network), the error comes
    out of [download_thumbnail] as it is, and nothing is printed. *)
Theorem download_thumbnail_metadata_error :
  forall (lib : imaging) (w : world) (self : YouTubeClient)
         (video_id save_path : str) (e : exn),
    (fetch_video_snippet self video_id w).1 = Raise e ->
    download_thumbnail lib self video_id save_path w
    = (Raise e, (fetch_video_snippet self video_id w).2).
Proof.
  intros lib w self video_id save_path e Hfetch.
  unfold download_thumbnail, get_thumbnail_url, bind.
  destruct (fetch_video_snippet self video_id w) as [r w1]. simpl in *. by subst.
Qed.

Lemma download_thumbnail_metadata_error_witness :
  let w := world_with_response (Response 200 (py "OK") sample_url (inr no_items)) in
  (fetch_video_snippet sample_client (py "abc123") w).1
  = Raise (Exn ValueError (py "Video snippet not found."))
  /\ download_thumbnail any_imaging sample_client (py "abc123") (py "thumb.jpg") w
     = (Raise (Exn ValueError (py "Video snippet not found.")),
        (fetch_video_snippet sample_client (py "abc123") w).2).
Proof.
  intros w.
  assert (Hfetch : (fetch_video_snippet sample_client (py "abc123") w).1
                   = Raise (Exn ValueError (py "Video snippet not found.")))
    by (vm_compute; reflexivity).
  split; [exact Hfetch |].
  apply (download_thumbnail_metadata_error any_imaging w sample_client (py "abc123")
           (py "thumb.jpg") _ Hfetch).
Defined.

Lemma download_thumbnail_outcomes_witness :
  let w := world_with_response sample_response in
  let w1 := log (EvGet sample_url) w in
  get_thumbnail_url sample_client (py "abc123") w = (Return (PStr sample_thumbnail_url), w1)
  /\ truthy (PStr sample_thumbnail_url) = true
  /\ download_thumbnail any_imaging sample_client (py "abc123") (py "thumb.jpg") w
     = (Return (Some (py "thumb.jpg")),
        log (EvWrite (py "thumb.jpg") []) (log (EvGet sample_thumbnail_url) w1)).
Proof.
  intros w w1.
  assert (Hthumb : get_thumbnail_url sample_client (py "abc123") w
                   = (Return (PStr sample_thumbnail_url), w1))
    by (vm_compute; reflexivity).
  split; [exact Hthumb |]. split; [reflexivity |].
  destruct (download_thumbnail_outcomes any_imaging w w1 sample_client (py "abc123")
              (py "thumb.jpg") (PStr sample_thumbnail_url) Hthumb eq_refl)
    as (_ & _ & _ & _ & _ & _ & Hsaved).
  apply (Hsaved sample_thumbnail_url sample_response tt); try reflexivity.
  simpl. lia.
Defined.

(** ** Configuration *)

(** The result of [get_config_json] is the constants, or the constants
    overridden by the object read from the file. *)
Lemma get_config_json_result (os : platform) (w w' : world) (cfg : gmap str pyval) :
  get_config_json os w = (Return cfg, w') ->
  cfg = DEFAULTS \/ exists d : gmap str pyval, cfg = d ∪ DEFAULTS.
Proof.
  unfold get_config_json.
  destruct (path_exists os w (CONFIG_JSON w)); [| intros [= <- _]; by left].
  rewrite try_except_print. unfold bind, open_read, lift.
  destruct (fs w (CONFIG_JSON w)) as [e | text]; simpl.
  { destruct (is_Exception e); [case_print e' Hp |]; [done | intros [= <- _]; by left | done]. }
  destruct (json_load os text) as [e | v]; simpl.
  { destruct (is_Exception e); [case_print e' Hp |]; [done | intros [= <- _]; by left | done]. }
  destruct v as [| b | z | f | u | l | d]; simpl; try (intros [= <- _]; by left).
  intros [= <- _]. right. by exists d.
Qed.

(** X22: whatever the configuration file holds, a configuration that
    [get_config_json] returns has an entry for each of the five default
    keys, so that the lookups of its callers cannot fail; and when the file
    holds a JSON object, each of its entries, of whatever type, overrides
    or extends the defaults. *)
Theorem get_config_json_keeps_default_keys :
  (forall (os : platform) (w w' : world) (cfg : gmap str pyval),
      get_config_json os w = (Return cfg, w') ->
      forall key,
        key ∈ [py "model_name"; py "temperature"; py "num_cxt";
               py "raw_text_chunk_size"; py "text_chunk_overlay_size"] ->
        is_Some (cfg !! key))
  /\ (forall (os : platform) (w : world) (text : str) (d : gmap str pyval),
        path_exists os w (CONFIG_JSON w) = true ->
        fs w (CONFIG_JSON w) = inr text ->
        json_load os text = inr (PDict d) ->
        exists cfg,
          get_config_json os w = (Return cfg, log (EvRead (CONFIG_JSON w)) w)
          /\ forall key, cfg !! key = match d !! key with
                                      | Some v => Some v
                                      | None => DEFAULTS !! key
                                      end).
Proof.
  split.
  - intros os w w' cfg Hcfg key Hkey.
    assert (Hdefault : is_Some (DEFAULTS !! key)).
    { apply list_elem_of_In in Hkey. simpl in Hkey.
      destruct Hkey as [<- | [<- | [<- | [<- | [<- | []]]]]]; vm_compute; by eexists. }
    destruct (get_config_json_result os w w' cfg Hcfg) as [-> | (d & ->)]; [done |].
    apply lookup_union_is_Some. by right.
  - intros os w text d Hexists Hread Hload. exists (d ∪ DEFAULTS). split.
    + unfold get_config_json. rewrite Hexists.
      unfold try_except, bind, open_read, lift. rewrite Hread. simpl. by rewrite Hload.
    + intros key. rewrite lookup_union. by destruct (d !! key), (DEFAULTS !! key).
Qed.

(** X23: a bad configuration file does not make [get_config_json] fail by
    itself.  Without a file the constants are returned and nothing is read
    or printed; a file that cannot be read, that is no JSON, or whose JSON
    is no object leads to the handler, which prints one warning carrying the
    text of the error and gives the constants; only when standard output
    refuses that warning does the error of [print] leave the call. *)
Theorem get_config_json_falls_back :
  forall (os : platform) (w : world),
    let w1 := log (EvRead (CONFIG_JSON w)) w in
    let warned (e : exn) : outcome (gmap str pyval) * world :=
      let line := py "Warning: Could not read config file, using constants. Error: "
                  ++ exn_str e in
      match print_error w line with
      | Some e' => (Raise e', w1)
      | None => (Return DEFAULTS, log (EvPrint line) w1)
      end in
    (path_exists os w (CONFIG_JSON w) = false -> get_config_json os w = (Return DEFAULTS, w))
    /\ (forall e, path_exists os w (CONFIG_JSON w) = true ->
          fs w (CONFIG_JSON w) = inl e -> is_Exception e = true ->
          get_config_json os w = warned e)
    /\ (forall text e, path_exists os w (CONFIG_JSON w) = true ->
          fs w (CONFIG_JSON w) = inr text -> json_load os text = inl e ->
          is_Exception e = true ->
          get_config_json os w = warned e)
    /\ (forall text v, path_exists os w (CONFIG_JSON w) = true ->
          fs w (CONFIG_JSON w) = inr text -> json_load os text = inr v ->
          (forall d, v <> PDict d) ->
          get_config_json os w
          = (Return DEFAULTS,
             log (EvPrint (py "Warning: Could not read config file, using constants. Error: '"
                           ++ type_name v ++ py "' object is not a mapping"))
                 w1)).
Proof.
  intros os w w1 warned. subst warned w1. unfold get_config_json.
  split; [| split; [| split]].
  - by intros ->.
  - intros e -> Hread He. rewrite try_except_print. unfold bind, open_read.
    rewrite Hread. simpl. by rewrite He.
  - intros text e -> Hread Hload He. rewrite try_except_print. unfold bind, open_read, lift.
    rewrite Hread. simpl. rewrite Hload. simpl. by rewrite He.
  - intros text v -> Hread Hload Hv. rewrite try_except_print. unfold bind, open_read, lift.
    rewrite Hread. simpl. rewrite Hload. simpl.
    destruct v as [| b | z | f | u | l | d]; try done. by destruct (Hv d).
Qed.

Example get_config_json_unprintable_warning :
  let os := Platform (fun _ _ => true) (fun _ => inl json_error) (fun _ => [])
                     (fun _ => inl bad_literal) (fun _ => inl bad_literal) (fun _ => [])
                     (fun _ => ret tt) in
  let denied := Exn (OtherException (py "PermissionError"))
                    (py "[Errno 13] Permission non accord" ++ [233%N] ++ py "e") in
  let w := World (fun _ => inl denied) (fun p => p) (fun _ => None)
                 (fun _ _ => inl unreachable) (fun _ => inl unreachable) (fun _ => None)
                 ascii_stdout [] in
  (get_config_json os w).1
  = Raise (Exn UnicodeEncodeError
               (py "'ascii' codec can't encode character '\xe9' in position 93: ordinal not in range(128)")).
Proof. vm_compute. reflexivity. Qed.

(** ** Interactive input *)





(** ** Saving the configuration *)

Lemma no_write_refl (w : world) : no_write w w.
Proof. by split. Qed.

Lemma no_write_trans (w1 w2 w3 : world) :
  no_write w1 w2 -> no_write w2 w3 -> no_write w1 w3.
Proof.
  intros [Hfs12 Hev12] [Hfs23 Hev23]. split; [congruence |].
  intros path data Hin. by apply Hev12, Hev23.
Qed.

Lemma no_write_log (ev : event) (w : world) : is_write ev = false -> no_write w (log ev w).
Proof.
  intros Hev. split; [done |]. intros path data Hin. simpl in Hin.
  apply elem_of_app in Hin as [Hin | Hin]; [done |].
  apply list_elem_of_singleton in Hin. by subst ev.
Qed.

Lemma quiet_ret {A} (a : A) : quiet (ret a).
Proof. intros w. apply no_write_refl. Qed.

Lemma quiet_raise {A} (e : exn) : quiet (@raise A e).
Proof. intros w. apply no_write_refl. Qed.

Lemma quiet_lift {A} (r : outcome A) : quiet (lift r).
Proof. intros w. apply no_write_refl. Qed.

Lemma quiet_print (line : str) : quiet (print line).
Proof.
  intros w. unfold print.
  destruct (print_error w line); [apply no_write_refl | by apply no_write_log].
Qed.

Lemma quiet_open_read (path : str) : quiet (open_read path).
Proof. intros w. by apply no_write_log. Qed.

Lemma quiet_input (prompt : str) (stdin : list str) : quiet (input prompt stdin).
Proof. intros w. unfold input. destruct stdin; by apply no_write_log. Qed.

Lemma quiet_bind {A B} (m : M A) (k : A -> M B) :
  quiet m -> (forall a, quiet (k a)) -> quiet (bind m k).
Proof.
  intros Hm Hk w. unfold bind. specialize (Hm w).
  destruct (m w) as [[a | e |] w1]; simpl in *; [| done | done].
  eapply no_write_trans; [exact Hm | apply Hk].
Qed.

Lemma quiet_try_except {A} (body : M A) (handler : exn -> M A) :
  quiet body -> (forall e, quiet (handler e)) -> quiet (try_except body handler).
Proof.
  intros Hbody Hhandler w. unfold try_except. specialize (Hbody w).
  destruct (body w) as [[a | e |] w1]; simpl in *; [done | | done].
  destruct (is_Exception e); [| done].
  eapply no_write_trans; [exact Hbody | apply Hhandler].
Qed.

Lemma quiet_get_config_json (os : platform) : quiet (get_config_json os).
Proof.
  intros w. unfold get_config_json.
  destruct (path_exists os w (CONFIG_JSON w)); [| apply no_write_refl].
  apply quiet_try_except.
  - apply quiet_bind; [apply quiet_open_read | intros text].
    apply quiet_bind; [apply quiet_lift | intros v; apply quiet_lift].
  - intros e. apply quiet_bind; [apply quiet_print | intros _; apply quiet_ret].
Qed.

Lemma quiet_get_input (os : platform) (prompt : str) (default : pyval)
    (cast_type : str -> exn + pyval) (stdin : list str) :
  quiet (get_input os prompt default cast_type stdin).
Proof.
  induction stdin as [| line rest IH]; intros w; simpl.
  - by apply no_write_log.
  - destruct (strip line) as [| c r]; [by apply no_write_log |].
    destruct (convert_input os default cast_type (c :: r)) as [e | value];
      [| by apply no_write_log].
    destruct (is_ValueError e); [| by apply no_write_log].
    eapply no_write_trans; [| apply IH].
    eapply no_write_trans; by apply no_write_log.
Qed.

Lemma quiet_print_items (os : platform) (items : list (str * pyval)) :
  quiet (print_items os items).
Proof.
  induction items as [| [key value] items IH]; [apply quiet_ret |].
  simpl. apply quiet_bind; [apply quiet_print | intros _; exact IH].
Qed.

Lemma failing_bind {A B} (m : M A) (k : A -> M B) :
  (forall a, failing (k a)) -> failing (bind m k).
Proof.
  intros Hk w b. unfold bind.
  destruct (m w) as [[a | e |] w1]; simpl; [apply Hk | done | done].
Qed.

Lemma failing_raise_then {A B} (e : exn) (k : A -> M B) : failing (bind (raise e) k).
Proof. intros w b. done. Qed.

Lemma get_config_json_no_file (os : platform) (w : world) :
  path_exists os w (CONFIG_JSON w) = false -> get_config_json os w = (Return DEFAULTS, w).
Proof. intros Hnone. unfold get_config_json. by rewrite Hnone. Qed.

Lemma default_entries :
  dict_getitem DEFAULTS (py "model_name") = Return (PStr (py "gpt-oss:20b"))
  /\ dict_getitem DEFAULTS (py "temperature") = Return (PFloat 0%float)
  /\ dict_getitem DEFAULTS (py "num_cxt") = Return (PInt 32768)
  /\ dict_getitem DEFAULTS (py "raw_text_chunk_size") = Return (PInt 32768)
  /\ dict_getitem DEFAULTS (py "text_chunk_overlay_size") = Return (PInt 100).
Proof. repeat split; vm_compute; reflexivity. Qed.

(** X26: [interactive_set_config] cannot save anything.  The value it hands
    to [open] is the dictionary [get_config_json] returns, not the path of
    the file, so a run in which every question is answered ends with
    [TypeError]; whatever the answers and the platform, the call never
    returns, no file changes and no write is made. *)
Theorem interactive_set_config_never_saves :
  (forall (os : platform) (stdin : list str) (w : world),
      (forall r, (interactive_set_config os stdin w).1 <> Return r)
      /\ no_write w (interactive_set_config os stdin w).2)
  /\ (forall (os : platform) (l1 l2 l3 l4 l5 : str) (rest : list str) (w : world),
        (forall w', path_exists os w' (CONFIG_JSON w') = false) ->
        Forall (fun l => strip l = []) [l1; l2; l3; l4; l5] ->
        (interactive_set_config os ([l1; l2; l3; l4; l5] ++ rest) w).1
        = Raise (Exn TypeError (py "expected str, bytes or os.PathLike object, not dict"))).
Proof.
  split.
  - intros os stdin w. split.
    + intros r. revert w r. change (failing (interactive_set_config os stdin)).
      unfold interactive_set_config.
      do 4 (apply failing_bind; intros ?).
      apply failing_bind; intros model_name.
      do 8 (apply failing_bind; intros ?).
      apply failing_bind; intros config_json.
      apply failing_raise_then.
    + revert w. change (quiet (interactive_set_config os stdin)).
      unfold interactive_set_config.
      apply quiet_bind; [apply quiet_get_config_json | intros defaults].
      apply quiet_bind; [apply quiet_print | intros _].
      apply quiet_bind; [apply quiet_lift | intros shown].
      apply quiet_bind; [apply quiet_input | intros answer].
      apply quiet_bind; [destruct (strip answer.1); [apply quiet_lift | apply quiet_ret] |
                         intros model_name].
      do 4 (apply quiet_bind; [apply quiet_lift | intros ?];
            apply quiet_bind; [apply quiet_get_input | intros ?]).
      apply quiet_bind; [apply quiet_get_config_json | intros config_json].
      apply quiet_bind; [apply quiet_raise | intros _].
      apply quiet_bind; [apply quiet_print | intros _].
      apply quiet_bind; [apply quiet_print_items | intros _; apply quiet_ret].
  - intros os l1 l2 l3 l4 l5 rest w Hnone Hblank.
    apply Forall_cons in Hblank as [H1 Hblank]. apply Forall_cons in Hblank as [H2 Hblank].
    apply Forall_cons in Hblank as [H3 Hblank]. apply Forall_cons in Hblank as [H4 Hblank].
    apply Forall_cons in Hblank as [H5 _].
    unfold interactive_set_config, bind, lift, input.
    rewrite get_config_json_no_file by apply Hnone.
    rewrite print_taken by reflexivity.
    cbn -[get_config_json strip py]. rewrite H1.
    cbn -[get_config_json strip py]. rewrite H2.
    cbn -[get_config_json strip py]. rewrite H3.
    cbn -[get_config_json strip py]. rewrite H4.
    cbn -[get_config_json strip py]. rewrite H5.
    cbn -[get_config_json strip py].
    destruct default_entries as (-> & -> & -> & -> & ->).
    rewrite get_config_json_no_file by apply Hnone.
    reflexivity.
Qed.

Lemma interactive_set_config_never_saves_witness :
  (forall w', path_exists plain_platform w' (CONFIG_JSON w') = false)
  /\ Forall (fun l => strip l = []) [py ""; py " "; py ""; py ""; py ""]
  /\ (interactive_set_config plain_platform ([py ""; py " "; py ""; py ""; py ""] ++ []) empty_world).1
     = Raise (Exn TypeError (py "expected str, bytes or os.PathLike object, not dict")).
Proof.
  assert (Hnone : forall w', path_exists plain_platform w' (CONFIG_JSON w') = false) by done.
  assert (Hblank : Forall (fun l => strip l = []) [py ""; py " "; py ""; py ""; py ""])
    by (repeat constructor).
  split; [exact Hnone |]. split; [exact Hblank |].
  destruct interactive_set_config_never_saves as [_ Hrun].
  apply (Hrun plain_platform (py "") (py " ") (py "") (py "") (py "") [] empty_world Hnone Hblank).
Defined.

(** ** The configuration directory *)

Lemma up_to_last_slash_none (b : str) : 47%N ∉ b -> up_to_last_slash b = [].
Proof.
  induction b as [| c b IH]; [done |]. intros Hb. simpl.
  rewrite IH by set_solver.
  destruct (N.eqb_spec c 47) as [-> | _]; [set_solver | done].
Qed.

Lemma up_to_last_slash_app (a b : str) :
  47%N ∉ b -> up_to_last_slash (a ++ 47%N :: b) = a ++ [47%N].
Proof.
  intros Hb. induction a as [| c a IH]; simpl.
  - by rewrite up_to_last_slash_none.
  - rewrite IH. by destruct a.
Qed.

Lemma rstrip_slashes_snoc (a : str) (c : N) :
  c <> 47%N -> rstrip_slashes (a ++ [c; 47%N]) = a ++ [c].
Proof.
  intros Hc. induction a as [| x a IH]; simpl.
  - by destruct (N.eqb_spec c 47).
  - rewrite IH. by destruct a.
Qed.

(** X27: [get_config_path] returns [<home>/.config/sumtube] but the
    directory it makes is the one above, [<home>/.config]: [os.path.dirname]
    takes the last component off before [os.makedirs] is called, so the
    directory that is returned need not exist afterwards. *)
Theorem get_config_path_makes_parent :
  forall (os : platform) (w : world),
    let parent := path_join (home w) (py ".config") in
    get_config_path os w = (makedirs os parent ;; ret (CONFIG_PATH w)) w
    /\ CONFIG_PATH w = parent ++ py "/sumtube"
    /\ dirname (CONFIG_PATH w) <> CONFIG_PATH w.
Proof.
  intros os w parent.
  assert (Hparent : exists a, parent = a ++ [103%N]).
  { subst parent. unfold path_join. simpl.
    destruct (last (home w)) as [c |].
    - destruct (N.eqb_spec c 47) as [-> | Hc].
      + exists (home w ++ py ".confi"). by rewrite <- app_assoc.
      + exists (home w ++ py "/.confi").
        replace (match c with 47%N => home w ++ py ".config" | _ => home w ++ 47%N :: py ".config" end)
          with (home w ++ 47%N :: py ".config").
        * by rewrite <- app_assoc.
        * destruct c as [| q]; [done |].
          do 6 (destruct q as [q | q |]; try done).
    - by exists (py ".confi"). }
  destruct Hparent as (a & Ha).
  assert (Hpath : CONFIG_PATH w = parent ++ py "/sumtube").
  { unfold CONFIG_PATH. fold parent. rewrite Ha. unfold path_join. simpl.
    rewrite last_snoc. by rewrite <- !app_assoc. }
  assert (Hdir : dirname (CONFIG_PATH w) = parent).
  { rewrite Hpath. unfold dirname.
    change (py "/sumtube") with (47%N :: py "sumtube").
    rewrite up_to_last_slash_app
      by (intros Hin%list_elem_of_In; simpl in Hin; intuition discriminate).
    rewrite Ha, <- app_assoc. simpl.
    rewrite forallb_app. simpl. rewrite andb_false_r.
    by apply rstrip_slashes_snoc. }
  split; [| split; [exact Hpath |]].
  - unfold get_config_path. by rewrite Hdir.
  - rewrite Hdir, Hpath. intros Heq.
    apply (f_equal length) in Heq. rewrite length_app in Heq. simpl in Heq. lia.
Qed.
